(** * Beautiful Flicker: flicker metrics, period extraction, frequency
    estimation and standards classification.

    Shallow embedding of [src/standards.py], of the metric and period
    functions of [src/waveform.py] and of the frequency estimator of
    [flask_app/modules/flicker_analysis.py].

    Numbers.  The Python code computes with IEEE doubles; the embedding uses
    exact rationals [Q].  Where a division can reach a zero divisor the
    embedding makes the outcome explicit (an exception, or a non-finite NumPy
    value) instead of relying on [Qdiv _ 0 = 0]. *)

From Stdlib Require Import QArith Qabs Qminmax Qround Lqa Ascii String ZArith Lia
  List Bool Permutation Sorted.
Import ListNotations.
Open Scope Q_scope.

(** ** Python exceptions *)

Inductive py_exn : Type :=
| ValueError
| IndexError
| ZeroDivisionError
| OverflowError.

Inductive result (A : Type) : Type :=
| Ok (a : A)
| Raise (e : py_exn).
Arguments Ok {A} a.
Arguments Raise {A} e.

Definition bind {A B : Type} (m : result A) (k : A -> result B) : result B :=
  match m with
  | Ok a => k a
  | Raise e => Raise e
  end.

Notation "x <- m ;; k" := (bind m (fun x => k))
  (at level 61, m at next level, right associativity).

(** Python's [<] on numbers. *)
Definition Qlt_bool (x y : Q) : bool := negb (Qle_bool y x).

(** ** [src/standards.py] *)

Module Standards.

(** [ieee_1789_2015(frequency, percent_flicker)]; the decimal constants of
    the source are written as exact fractions. *)
Definition ieee_1789_2015 (frequency percent_flicker : Q) : string :=
  if Qlt_bool 3000 frequency then "No Risk"%string
  else
    match
      (if Qlt_bool frequency 90 then
         if Qlt_bool percent_flicker ((1#100) * frequency) then Some "No Risk"%string
         else if Qlt_bool percent_flicker ((1#40) * frequency) then Some "Low Risk"%string
         else None
       else None)
    with
    | Some r => r
    | None =>
        (* Other flicker <= 3 kHz *)
        if Qlt_bool percent_flicker ((333#10000) * frequency) then "No Risk"%string
        else if Qle_bool frequency 1250 then
          if Qlt_bool percent_flicker ((2#25) * frequency) then "Low Risk"%string
          else "High Risk"%string
        else "High Risk"%string
    end.

Definition california_ja8_2019 (frequency percent_flicker : Q) : bool :=
  if Qlt_bool 200 frequency then true
  else if Qlt_bool percent_flicker 30 then true
  else false.

Definition well_building_standard_v2 (frequency percent_flicker : Q) : bool :=
  if Qlt_bool 90 frequency then true
  else if Qlt_bool percent_flicker 5 then true
  else false.

End Standards.

(** ** [src/waveform.py]: percent flicker *)

Module Metrics.

(** [percent_flicker(v_max, v_pp) = v_pp / v_max * 100]. *)
Definition percent_flicker (v_max v_pp : Q) : Q := v_pp / v_max * 100.

End Metrics.

(** ** Python list access *)

Module Py.

(** [l[i]] with Python's negative indices. *)
Definition get {A : Type} (l : list A) (i : Z) : result A :=
  let n := Z.of_nat (length l) in
  if (0 <=? i)%Z && (i <? n)%Z then
    match nth_error l (Z.to_nat i) with Some x => Ok x | None => Raise IndexError end
  else if (- n <=? i)%Z && (i <? 0)%Z then
    match nth_error l (Z.to_nat (n + i)) with Some x => Ok x | None => Raise IndexError end
  else Raise IndexError.

(** Bound normalisation of a slice [l[a:b]] (step 1). *)
Definition slice_bound (n a : Z) : Z :=
  if (a <? 0)%Z then Z.max 0 (a + n) else Z.min a n.

Definition slice {A : Type} (l : list A) (a b : Z) : list A :=
  let n := Z.of_nat (length l) in
  let a' := slice_bound n a in
  let b' := slice_bound n b in
  firstn (Z.to_nat (b' - a')) (skipn (Z.to_nat a') l).

(** [int(x)] on a finite float: truncation towards zero. *)
Definition trunc (q : Q) : Z := Z.quot (Qnum q) (Zpos (Qden q)).

End Py.

(** ** [src/waveform.py]: Simpson integration and the flicker index *)

Module Simpson.

(** [scipy.integrate._basic_simpson] with [dx = 1] over an odd number of
    samples: [sum (y0 + 4 y1 + y2) / 3] over consecutive pairs of intervals. *)
Fixpoint basic_simpson (y : list Q) : Q :=
  match y with
  | a :: b :: ((c :: _) as t) => (a + 4 * b + c) / 3 + basic_simpson t
  | _ => 0
  end.

(** [scipy.integrate.simpson(y)] (SciPy >= 1.11, [dx = 1]): composite
    Simpson on an odd number of samples; on an even number the first
    [N - 2] intervals use Simpson and the last one Cartwright's correction
    ([alpha = 5/12], [beta = 2/3], [eta = 1/12] for unit spacing); two
    samples give the trapezoid.  The empty array is never integrated by the
    code below ([n_periods] never returns an empty slice). *)
Definition simpson (y : list Q) : Q :=
  let N := length y in
  if Nat.even N then
    if (N =? 2)%nat then (1#2) * (nth 1 y 0 + nth 0 y 0)
    else basic_simpson (firstn (N - 1) y)
         + (5#12) * nth (N - 1) y 0 + (2#3) * nth (N - 2) y 0
         - (1#12) * nth (N - 3) y 0
  else basic_simpson y.

End Simpson.

Module Waveform.
Import Simpson.

(** [flicker_index(one_period, v_avg)].  The rows are [(time, value)].
    [None] is the non-finite NumPy result ([nan] or [inf]) of the final
    division when [area_all] is zero. *)
Definition flicker_index (one_period : list (Q * Q)) (v_avg : Q) : option Q :=
  let values := map snd one_period in
  let curve_top := map (fun i => if Qlt_bool v_avg i then i else v_avg) values in
  let curve_top := map (fun c => c - v_avg) curve_top in
  let area_top := simpson curve_top in
  let area_all := simpson values in
  if Qeq_bool area_all 0 then None else Some (area_top / area_all).

(** [np.abs(array - value).argmin()]: the first index of the minimum;
    [argmin] of an empty array raises [ValueError]. *)
Fixpoint argmin_from (l : list Q) (i best_i : nat) (best : Q) : nat :=
  match l with
  | [] => best_i
  | x :: r =>
      if Qlt_bool x best then argmin_from r (S i) i x
      else argmin_from r (S i) best_i best
  end.

Definition argmin (l : list Q) : result nat :=
  match l with
  | [] => Raise ValueError
  | x :: r => Ok (argmin_from r 1 0 x)
  end.

Definition find_nearest_idx (array : list Q) (value : Q) : result nat :=
  argmin (map (fun a => Qabs (a - value)) array).

(** [find_nearest_idx_rising(array, value)].  The recursion is on the tail
    [array[idx+1:]], which is strictly shorter, so [S (length array)] calls
    suffice: the search ends at the latest on the empty array, where
    [argmin] raises.  The [and] short-circuits, so [array[idx+1]] is only
    read when [array[idx] > array[idx-1]]. *)
Fixpoint find_nearest_idx_rising_fuel (fuel : nat) (array : list Q) (value : Q)
  : result nat :=
  match fuel with
  | O => Raise ValueError
  | S fuel' =>
      idx <- find_nearest_idx array value ;;
      x <- Py.get array (Z.of_nat idx) ;;
      p <- Py.get array (Z.of_nat idx - 1) ;;
      if Qlt_bool p x then
        n <- Py.get array (Z.of_nat idx + 1) ;;
        if Qlt_bool x n then Ok idx
        else find_nearest_idx_rising_fuel fuel' (skipn (S idx) array) value
      else find_nearest_idx_rising_fuel fuel' (skipn (S idx) array) value
  end.

Definition find_nearest_idx_rising (array : list Q) (value : Q) : result nat :=
  find_nearest_idx_rising_fuel (S (length array)) array value.

(** [int(period / delta)] for NumPy floats: a zero [delta] gives [inf]
    ([int] raises [OverflowError]) or [nan] ([int] raises [ValueError]). *)
Definition int_of_div (x y : Q) : result Z :=
  if Qeq_bool y 0 then
    if Qeq_bool x 0 then Raise ValueError else Raise OverflowError
  else Ok (Py.trunc (x / y)).

(** [n_periods(data, v_avg, period, num_periods)]; rows are [(time, value)]. *)
Definition n_periods (data : list (Q * Q)) (v_avg period : Q) (num_periods : Z)
  : result (list (Q * Q)) :=
  r0 <- Py.get data 0 ;;
  let t_0 := fst r0 in
  r1 <- Py.get data 1 ;;
  let delta := fst r1 - t_0 in
  idx_1 <- int_of_div period delta ;;
  r_1 <- Py.get data idx_1 ;;
  idx_avg <- find_nearest_idx_rising (map snd data) v_avg ;;
  let out := Py.slice data (Z.of_nat idx_avg)
               (Z.of_nat idx_avg + num_periods * idx_1) in
  first <- Py.get out 0 ;;
  let min_val := fst first in
  Ok (map (fun r => (fst r - min_val, snd r)) out).

End Waveform.

(** ** [flask_app/modules/flicker_analysis.py]: frequency estimation *)

Module Estimator.

(** *** NumPy helpers *)

(** Stable insertion of [x] after the elements not greater than it;
    [isort] is Python's [sorted] on numbers (a stable sort by [<]). *)
Fixpoint insert_by {A : Type} (key : A -> Q) (x : A) (l : list A) : list A :=
  match l with
  | [] => [x]
  | y :: r => if Qlt_bool (key x) (key y) then x :: y :: r else y :: insert_by key x r
  end.

Definition isort_by {A : Type} (key : A -> Q) (l : list A) : list A :=
  fold_left (fun acc x => insert_by key x acc) l [].

Definition isort (l : list Q) : list Q := isort_by (fun x => x) l.

Fixpoint sum (l : list Q) : Q :=
  match l with [] => 0 | x :: r => x + sum r end.

(** [np.mean] of a non-empty array. *)
Definition mean (l : list Q) : Q := sum l / inject_Z (Z.of_nat (List.length l)).

(** [np.var]: the population variance ([np.std] is its square root). *)
Definition pop_var (l : list Q) : Q :=
  let m := mean l in mean (map (fun x => (x - m) * (x - m)) l).

(** [np.median]: middle element, or the mean of the two middle ones. *)
Definition median (l : list Q) : Q :=
  let s := isort l in
  let n := List.length l in
  if Nat.odd n then nth (n / 2) s 0
  else (nth (n / 2 - 1) s 0 + nth (n / 2) s 0) / 2.

(** [np.argmax]: the first index of the maximum. *)
Fixpoint argmax_from (l : list Q) (i best_i : nat) (best : Q) : nat :=
  match l with
  | [] => best_i
  | x :: r =>
      if Qlt_bool best x then argmax_from r (S i) i x
      else argmax_from r (S i) best_i best
  end.

Definition argmax (l : list Q) : result nat :=
  match l with
  | [] => Raise ValueError
  | x :: r => Ok (argmax_from r 1 0 x)
  end.

(** Python's [min] on a list: the first minimal element. *)
Definition py_min (l : list Q) : result Q :=
  match l with
  | [] => Raise ValueError
  | x :: r => Ok (fold_left (fun acc y => if Qlt_bool y acc then y else acc) r x)
  end.

(** [np.sign]. *)
Definition sign (x : Q) : Z :=
  if Qlt_bool 0 x then 1%Z else if Qlt_bool x 0 then (-1)%Z else 0%Z.

(** [np.diff] of an index array. *)
Fixpoint diffs (l : list nat) : list nat :=
  match l with
  | a :: ((b :: _) as t) => (b - a)%nat :: diffs t
  | _ => []
  end.

(** [np.where(np.diff(np.sign(values)))[0]]: the indices [i] with
    [sign values[i] <> sign values[i+1]]. *)
Fixpoint zero_crossings_from (i : nat) (l : list Q) : list nat :=
  match l with
  | a :: ((b :: _) as t) =>
      if (sign a =? sign b)%Z then zero_crossings_from (S i) t
      else i :: zero_crossings_from (S i) t
  | _ => []
  end.

Definition zero_crossings (l : list Q) : list nat := zero_crossings_from 0 l.

(** *** [scipy.signal.find_peaks(x, height=h, distance=d)] *)

Fixpoint plateau_end (fuel : nat) (x : list Q) (i_max : nat) (v : Q) (j : nat) : nat :=
  match fuel with
  | O => j
  | S f =>
      if (j <? i_max)%nat && Qeq_bool (nth j x 0) v
      then plateau_end f x i_max v (S j) else j
  end.

(** [_local_maxima_1d]: a strict rise followed by a (possibly flat) top and a
    strict fall; the peak is the middle of the top. *)
Fixpoint local_maxima_from (fuel : nat) (x : list Q) (i_max i : nat) : list nat :=
  match fuel with
  | O => []
  | S f =>
      if (i <? i_max)%nat then
        if Qlt_bool (nth (i - 1) x 0) (nth i x 0) then
          let i_ahead := plateau_end (List.length x) x i_max (nth i x 0) (S i) in
          if Qlt_bool (nth i_ahead x 0) (nth i x 0)
          then ((i + (i_ahead - 1)) / 2)%nat :: local_maxima_from f x i_max (S i_ahead)
          else local_maxima_from f x i_max (S i)
        else local_maxima_from f x i_max (S i)
      else []
  end.

Definition local_maxima_1d (x : list Q) : list nat :=
  local_maxima_from (List.length x) x (List.length x - 1) 1.

(** [_select_by_peak_distance]: peaks are visited by decreasing height
    ([np.argsort] of the heights, read backwards; ties are taken in stable
    order here) and each kept peak removes the others closer than [d].  The
    two [while] loops of the source stop at the first peak at distance
    [>= d]; since [peaks] is increasing, that removes exactly the peaks
    closer than [d]. *)
Definition select_by_peak_distance (x : list Q) (peaks : list nat) (d : nat)
  : list nat :=
  let n := List.length peaks in
  let order := rev (isort_by (fun j => nth (nth j peaks O) x 0) (seq 0 n)) in
  let keep :=
    fold_left
      (fun keep j =>
         if nth j keep false then
           map (fun k =>
                  if (k =? j)%nat then nth k keep false
                  else if (Nat.max (nth j peaks O) (nth k peaks O)
                           - Nat.min (nth j peaks O) (nth k peaks O) <? d)%nat
                  then false else nth k keep false)
               (seq 0 n)
         else keep)
      order (repeat true n) in
  map fst (filter snd (combine peaks keep)).

Definition find_peaks (x : list Q) (height : Q) (distance : Z) : result (list nat) :=
  if (distance <? 1)%Z then Raise ValueError
  else
    let peaks := local_maxima_1d x in
    let peaks := filter (fun p => Qle_bool height (nth p x 0)) peaks in
    Ok (select_by_peak_distance x peaks (Z.to_nat distance)).

(** *** [_improved_autocorrelation_detection(values, framerate)] *)

(** [np.correlate(v, v, mode='full')[size // 2:]]: the lags [0 .. N-1]. *)
Definition autocorrelation (v : list Q) : list Q :=
  map (fun k => sum (map (fun n => nth (n + k) v 0 * nth n v 0)
                         (seq 0 (List.length v - k))))
      (seq 0 (List.length v)).

Definition autocorrelation_body (values : list Q) (framerate : Z) : result (option Q) :=
  let m := mean values in
  let values_norm := map (fun x => x - m) values in
  let autocorr := autocorrelation values_norm in
  a0 <- Py.get autocorr 0 ;;
  let autocorr := if Qeq_bool a0 0 then autocorr else map (fun a => a / a0) autocorr in
  let min_period_samples := Z.quot framerate 1000 in
  let max_period_samples := Z.quot framerate 10 in
  let len := Z.of_nat (List.length autocorr) in
  let max_period_samples :=
    if (len <=? max_period_samples)%Z then (len - 1)%Z else max_period_samples in
  let search_range := Py.slice autocorr min_period_samples max_period_samples in
  match search_range with
  | [] => Ok None
  | _ =>
      peaks <- find_peaks search_range (1#10) (Z.div min_period_samples 2) ;;
      peak_idx <- (match peaks with
                   | [] => argmax search_range
                   | p :: _ => Ok p
                   end) ;;
      let period_samples := (Z.of_nat peak_idx + min_period_samples)%Z in
      (* [framerate / np.int64(0)] is [inf], which fails the range test *)
      if (period_samples =? 0)%Z then Ok None
      else
        let frequency := inject_Z framerate / inject_Z period_samples in
        if Qle_bool 10 frequency && Qle_bool frequency 1000
        then Ok (Some frequency) else Ok None
  end.

(** The [except Exception: return None] of the source. *)
Definition improved_autocorrelation_detection (values : list Q) (framerate : Z)
  : option Q :=
  match autocorrelation_body values framerate with
  | Ok r => r
  | Raise _ => None
  end.

(** *** [_improved_zero_crossing_detection(values, framerate)] *)

(** [|d - median| < 2 * np.std(intervals)]: both sides are non-negative, so
    the test is the comparison of their squares, [|d - median|^2 < 4 var]. *)
Definition within_two_std (median_interval var d : Q) : bool :=
  Qlt_bool ((d - median_interval) * (d - median_interval)) (4 * var).

Definition improved_zero_crossing_detection (values : list Q) (framerate : Z)
  : option Q :=
  let zc := zero_crossings values in
  if (List.length zc <? 4)%nat then None
  else
    let crossing_intervals := map (fun d => inject_Z (Z.of_nat d)) (diffs zc) in
    let median_interval := median crossing_intervals in
    let var := pop_var crossing_intervals in
    let valid_intervals :=
      filter (within_two_std median_interval var) crossing_intervals in
    match valid_intervals with
    | [] => None
    | _ =>
        let avg_half_period := mean valid_intervals in
        let frequency := inject_Z framerate / (2 * avg_half_period) in
        if Qle_bool 10 frequency && Qle_bool frequency 1000
        then Some frequency else None
    end.

(** *** [_find_fundamental_frequency(candidates)] *)

(** The inner loop over the harmonics [2 .. 6] of one lower candidate:
    [Some true] on the first [abs(freq - expected) / expected < 0.1];
    [None] is the [ZeroDivisionError] of a zero [expected]. *)
Fixpoint harmonic_of (freq lower : Q) (harmonics : list Q) : option bool :=
  match harmonics with
  | [] => Some false
  | h :: hs =>
      let expected := lower * h in
      if Qeq_bool expected 0 then None
      else if Qlt_bool (Qabs (freq - expected) / expected) (1#10) then Some true
      else harmonic_of freq lower hs
  end.

(** The loop over [fundamental_candidates] with its [break]. *)
Fixpoint is_harmonic (freq : Q) (fundamental_candidates : list Q) : option bool :=
  match fundamental_candidates with
  | [] => Some false
  | lower :: rest =>
      match harmonic_of freq lower [2; 3; 4; 5; 6] with
      | None => None
      | Some true => Some true
      | Some false => is_harmonic freq rest
      end
  end.

(** The loop over [candidates_sorted]; [fundamental_candidates] grows by
    [append] at its end. *)
Fixpoint suppress_harmonics (fundamental_candidates candidates_sorted : list Q)
  : result (list Q) :=
  match candidates_sorted with
  | [] => Ok fundamental_candidates
  | freq :: rest =>
      match is_harmonic freq fundamental_candidates with
      | None => Raise ZeroDivisionError
      | Some true => suppress_harmonics fundamental_candidates rest
      | Some false => suppress_harmonics (fundamental_candidates ++ [freq]) rest
      end
  end.

Definition find_fundamental_body (candidates : list Q) : result Q :=
  match candidates with
  | [c] => Ok c
  | _ =>
      fundamental_candidates <- suppress_harmonics [] (isort candidates) ;;
      match fundamental_candidates with
      | [] => py_min candidates
      | _ => py_min fundamental_candidates
      end
  end.

(** [except Exception: return min(candidates) if candidates else 120.0]. *)
Definition find_fundamental_frequency (candidates : list Q) : Q :=
  match find_fundamental_body candidates with
  | Ok f => f
  | Raise _ =>
      match py_min candidates with
      | Ok m => m
      | Raise _ => 120
      end
  end.

(** *** [_preprocess_signal] and [_detect_flicker_frequency] *)

(** [values[i]] with the zero padding of [scipy.signal.medfilt]. *)
Definition get0 (l : list Q) (i : Z) : Q :=
  if (0 <=? i)%Z && (i <? Z.of_nat (List.length l))%Z
  then nth (Z.to_nat i) l 0 else 0.

(** [medfilt(values, kernel_size=5)]. *)
Definition medfilt5 (l : list Q) : list Q :=
  map (fun i =>
         let i := Z.of_nat i in
         nth 2 (isort [get0 l (i - 2); get0 l (i - 1); get0 l i;
                       get0 l (i + 1); get0 l (i + 2)]) 0)
      (seq 0 (List.length l)).

(** Subtraction of the mean. *)
Definition center (l : list Q) : list Q :=
  let m := mean l in map (fun x => x - m) l.

Section Detection.

(** SciPy's Savitzky-Golay filter [savgol_filter(x, window_length, polyorder)]
    and the square root taken by [np.std] (irrational in general) are not
    unfolded; the FFT method ([np.hanning] window, DFT magnitudes) is not
    expressible over [Q] either.  They are parameters of the section. *)
Variable savgol_filter : list Q -> nat -> nat -> list Q.
Variable sqrt : Q -> Q.
Variable improved_fft_fundamental_detection : list Q -> Z -> option Q.

(** [_preprocess_signal(values)].  Its [try] body raises only on an empty
    array, where the fallback also returns the empty array. *)
Definition preprocess_signal (values : list Q) : list Q :=
  let values_centered := center (medfilt5 values) in
  let n := List.length values_centered in
  let values_smooth :=
    if (50 <? n)%nat then
      let window_length := Nat.min 51 (n / 10) in
      let window_length :=
        if Nat.even window_length then S window_length else window_length in
      savgol_filter values_centered window_length 3
    else values_centered in
  let std_val := sqrt (pop_var values_smooth) in
  if Qlt_bool 0 std_val then map (fun x => x / std_val) values_smooth
  else values_smooth.

Definition option_to_list {A : Type} (o : option A) : list A :=
  match o with Some a => [a] | None => [] end.

(** [_detect_flicker_frequency(data, framerate)]; rows are [(time, value)]. *)
Definition detect_flicker_frequency (data : list (Q * Q)) (framerate : Z) : Q :=
  let values := map snd data in
  let cleaned_values := preprocess_signal values in
  let fft_freq := improved_fft_fundamental_detection cleaned_values framerate in
  let autocorr_freq := improved_autocorrelation_detection cleaned_values framerate in
  let zero_cross_freq := improved_zero_crossing_detection cleaned_values framerate in
  let candidates :=
    option_to_list fft_freq ++ option_to_list autocorr_freq
      ++ option_to_list zero_cross_freq in
  match candidates with
  | [] => 120
  | _ => find_fundamental_frequency candidates
  end.

End Detection.

End Estimator.

(** ** [src/waveform.py]: import, frame rate, frequency, extrapolation and
    the [Waveform] and [WaveformCollection] classes *)

Module WaveformClass.

(** Python's [round(x)] of a finite float to an integer: the nearest
    integer, ties to the even one. *)
Definition round_half_even (q : Q) : Z :=
  let f := Qfloor q in
  let r := q - inject_Z f in
  if Qlt_bool r (1#2) then f
  else if Qlt_bool (1#2) r then (f + 1)%Z
  else if Z.even f then f else (f + 1)%Z.

(** [framerate(data) = int(round(1 / (data[1,0] - data[0,0])))].  A zero
    step gives the NumPy value [inf], which [round] refuses with
    [OverflowError]. *)
Definition framerate (data : list (Q * Q)) : result Z :=
  r1 <- Py.get data 1 ;;
  r0 <- Py.get data 0 ;;
  let dt := fst r1 - fst r0 in
  if Qeq_bool dt 0 then Raise OverflowError
  else Ok (round_half_even (1 / dt)).

(** The block [if est_freq >= 115 and est_freq <= 130: est_freq = 120.0]. *)
Definition snap_120 (est_freq : Z) : Q :=
  if (115 <=? est_freq)%Z && (est_freq <=? 130)%Z then 120 else inject_Z est_freq.

(** [frequency(data, framerate, v_avg)].  With fewer than two crossings
    [np.mean] of the empty interval array is [nan], and [round(nan)] raises
    [ValueError]. *)
Definition frequency (data : list (Q * Q)) (framerate : Z) (v_avg : Q) : result Q :=
  let zdata := map (fun v => v - v_avg) (map snd data) in
  let zero_crossings := Estimator.zero_crossings zdata in
  let intervals := map (fun d => inject_Z (Z.of_nat d)) (Estimator.diffs zero_crossings) in
  match intervals with
  | [] => Raise ValueError
  | _ => Ok (snap_120 (round_half_even (inject_Z framerate / Estimator.mean intervals / 2)))
  end.

(** One pass of the [for i in range(1, num_periods)] loop of [extrapolate]:
    [out_array[-1,0]] is read first, then [1 / framerate] (a Python [int],
    so a zero frame rate raises [ZeroDivisionError]). *)
Definition extrapolate_step (one_period out_array : list (Q * Q)) (framerate : Z)
  : result (list (Q * Q)) :=
  last_row <- Py.get out_array (-1) ;;
  let max_out := fst last_row in
  time_interval <- (if (framerate =? 0)%Z then Raise ZeroDivisionError
                    else Ok (1 / inject_Z framerate)) ;;
  let new_period :=
    map (fun r => (fst r + (max_out + time_interval), snd r)) one_period in
  Ok (out_array ++ new_period).

Fixpoint extrapolate_loop (k : nat) (one_period out_array : list (Q * Q))
  (framerate : Z) : result (list (Q * Q)) :=
  match k with
  | O => Ok out_array
  | S k' =>
      out_array <- extrapolate_step one_period out_array framerate ;;
      extrapolate_loop k' one_period out_array framerate
  end.

(** [extrapolate(one_period, v_pp, framerate, time_ms)]; [None] is
    [time_ms=None].  [int(1 / v_pp)] on a NumPy [v_pp = 0] is [int(inf)]. *)
Definition extrapolate (one_period : list (Q * Q)) (v_pp : Q) (framerate : Z)
  (time_ms : option Z) : result (list (Q * Q) * Z) :=
  num_periods <- (match time_ms with
                  | None => n <- Waveform.int_of_div 1 v_pp ;; Ok (n + 1)%Z
                  | Some t => Ok (Py.trunc (inject_Z framerate / 1000 * inject_Z t))
                  end) ;;
  out_array <- extrapolate_loop (Z.to_nat (num_periods - 1)) one_period one_period framerate ;;
  Ok (out_array, num_periods).

(** [ndarray.max()] and [ndarray.min()]; both raise [ValueError] on an
    empty array. *)
Definition np_max (l : list Q) : result Q :=
  match l with [] => Raise ValueError | x :: r => Ok (fold_left Qmax r x) end.

Definition np_min (l : list Q) : result Q :=
  match l with [] => Raise ValueError | x :: r => Ok (fold_left Qmin r x) end.

(** [import_waveform_csv(filename)] after [np.genfromtxt]: the rows of the
    file with the time axis shifted to start at [0]. *)
Definition import_rows (rows : list (Q * Q)) : result (list (Q * Q)) :=
  r0 <- Py.get rows 0 ;;
  let t_0 := fst r0 in
  Ok (map (fun r => (fst r - t_0, snd r)) rows).

(** The attributes a successful [Waveform.__init__] sets (the name apart,
    see [waveform_obj] below). *)
Record waveform : Type := {
  wf_data : list (Q * Q);
  wf_denoised : bool;
  wf_framerate : Z;
  wf_v_max : Q;
  wf_v_min : Q;
  wf_v_pp : Q;
  wf_v_avg : Q;
  wf_frequency : Q;
  wf_period : Q;
  wf_one_period : list (Q * Q);
  wf_flicker_index : option Q;
  wf_percent_flicker : Q;
  wf_ieee_1789_2015 : string;
  wf_well_standard_v2 : bool;
  wf_california_ja8_2019 : bool
}.

(** A Python string as its list of characters; [s[i]] is [Py.get]. *)
Definition chars (s : string) : list ascii := list_ascii_of_string s.

(** [f.split('.')[0]]: the text before the first ['.']. *)
Fixpoint before_dot (s : string) : string :=
  match s with
  | EmptyString => EmptyString
  | String c r => if Ascii.eqb c "."%char then EmptyString else String c (before_dot r)
  end.

(** [f.replace('_', ' ')]. *)
Fixpoint replace_underscore (s : string) : string :=
  match s with
  | EmptyString => EmptyString
  | String c r =>
      String (if Ascii.eqb c "_"%char then " "%char else c) (replace_underscore r)
  end.

(** The two formatting lines of [get_files_in_directory]. *)
Definition format_name (f : string) : string := replace_underscore (before_dot f).

(** The inner loop of [get_files_in_directory] over the files of one
    directory; [dirpath] is updated in place. *)
Fixpoint files_loop (dirpath : string) (filenames names paths : list string)
  : result (list string * list string) :=
  match filenames with
  | [] => Ok (names, paths)
  | f :: fs =>
      last_char <- Py.get (chars dirpath) (-1) ;;
      let dirpath :=
        if negb (Ascii.eqb last_char "/"%char) then (dirpath ++ "/")%string else dirpath in
      first_char <- Py.get (chars f) 0 ;;
      if negb (Ascii.eqb first_char "."%char) then
        files_loop dirpath fs (names ++ [format_name f]) (paths ++ [(dirpath ++ f)%string])
      else files_loop dirpath fs names paths
  end.

(** The outer loop over the triples [(dirpath, dirnames, filenames)] that
    [os.walk(dir)] yields. *)
Fixpoint walk_loop (walk : list (string * list string * list string))
  (names paths : list string) : result (list string * list string) :=
  match walk with
  | [] => Ok (names, paths)
  | (dirpath, _, filenames) :: rest =>
      np <- files_loop dirpath filenames names paths ;;
      walk_loop rest (fst np) (snd np)
  end.

(** [get_files_in_directory(dir)] on the listing [walk] of [os.walk(dir)]. *)
Definition get_files_in_directory (walk : list (string * list string * list string))
  : result (list string * list string) :=
  walk_loop walk [] [].

Section WithIO.

(** Reading a CSV file ([np.genfromtxt]) and SciPy's Savitzky-Golay filter
    are not unfolded: they are parameters of the section. *)
Variable genfromtxt : string -> result (list (Q * Q)).
Variable savgol_filter : list Q -> nat -> nat -> result (list Q).

(** [denoise(data, window_length=901)]. *)
Definition denoise (data : list (Q * Q)) : result (list (Q * Q)) :=
  filtered <- savgol_filter (map snd data) 901 3 ;;
  Ok (combine (map fst data) filtered).

(** The [try] body of [Waveform.__init__(filename, name, remove_noise)] from
    the rows of the file on.  [self.period = 1 / self.frequency]: a zero
    estimate raises, [ZeroDivisionError] on a Python [int] (on a NumPy
    [0.0] the [inf] period makes [n_periods] raise instead). *)
Definition waveform_init (rows : list (Q * Q)) (remove_noise : bool) : result waveform :=
  data <- import_rows rows ;;
  data <- (if remove_noise then denoise data else Ok data) ;;
  fr <- framerate data ;;
  v_max <- np_max (map snd data) ;;
  v_min <- np_min (map snd data) ;;
  let v_pp := v_max - v_min in
  let v_avg := (v_max + v_min) / 2 in
  freq <- frequency data fr v_avg ;;
  period <- (if Qeq_bool freq 0 then Raise ZeroDivisionError else Ok (1 / freq)) ;;
  one_period <- Waveform.n_periods data v_avg period 1 ;;
  let fi := Waveform.flicker_index one_period v_avg in
  let pf := Metrics.percent_flicker v_max v_pp in
  Ok {| wf_data := data; wf_denoised := remove_noise; wf_framerate := fr;
        wf_v_max := v_max; wf_v_min := v_min; wf_v_pp := v_pp; wf_v_avg := v_avg;
        wf_frequency := freq; wf_period := period; wf_one_period := one_period;
        wf_flicker_index := fi; wf_percent_flicker := pf;
        wf_ieee_1789_2015 := Standards.ieee_1789_2015 freq pf;
        wf_well_standard_v2 := Standards.well_building_standard_v2 freq pf;
        wf_california_ja8_2019 := Standards.california_ja8_2019 freq pf |}.

(** A [Waveform] object: [self.name] is assigned before anything can
    raise; when the [try] body raises, the constructor only prints a
    warning ([self = None] rebinds a local), so the object exists with its
    name and without the other attributes. *)
Record waveform_obj : Type := {
  obj_name : string;
  obj_state : result waveform
}.

Definition Waveform_new (filename name : string) (remove_noise : bool) : waveform_obj :=
  {| obj_name := name;
     obj_state := rows <- genfromtxt filename ;; waveform_init rows remove_noise |}.

(** The loop of [import_directory]: [Waveform(paths[i], f)] with the default
    [remove_noise=True]; the test [w is not None] always holds. *)
Fixpoint import_loop (i : nat) (filenames paths : list string)
  (waveforms : list waveform_obj) : result (list waveform_obj) :=
  match filenames with
  | [] => Ok waveforms
  | f :: fs =>
      p <- Py.get paths (Z.of_nat i) ;;
      import_loop (S i) fs paths (waveforms ++ [Waveform_new p f true])
  end.

Definition import_directory (walk : list (string * list string * list string))
  : result (list waveform_obj) :=
  np <- get_files_in_directory walk ;;
  import_loop 0 (fst np) (snd np) [].

Definition get_names_in_waveform_list (waveform_list : list waveform_obj) : list string :=
  fold_left (fun names w => names ++ [obj_name w]) waveform_list [].

Record collection : Type := {
  waveforms : list waveform_obj;
  names : list string
}.

(** [WaveformCollection(path)]. *)
Definition WaveformCollection_new (walk : list (string * list string * list string))
  : result collection :=
  ws <- import_directory walk ;;
  Ok {| waveforms := ws; names := get_names_in_waveform_list ws |}.

(** [WaveformCollection.get(name)]: the first waveform with that name, or
    [None] when the loop ends. *)
Definition get (c : collection) (name : string) : option waveform_obj :=
  find (fun w => String.eqb (obj_name w) name) (waveforms c).

End WithIO.

End WaveformClass.

(** ** [flask_app/modules/flicker_analysis.py]: the remaining analysis
    helpers *)

Module Analyzer.

(** [_find_rising_edge(values, threshold)]: the first [i] in
    [range(1, len(values))] with [values[i-1] <= threshold < values[i]],
    else [0]. *)
Fixpoint find_rising_edge_from (values : list Q) (threshold : Q) (i k : nat) : nat :=
  match k with
  | O => 0
  | S k' =>
      if Qle_bool (nth (i - 1) values 0) threshold && Qlt_bool threshold (nth i values 0)
      then i else find_rising_edge_from values threshold (S i) k'
  end.

Definition find_rising_edge (values : list Q) (threshold : Q) : nat :=
  find_rising_edge_from values threshold 1 (List.length values - 1).

(** The [try] body of [_calculate_flicker_index(data, v_avg, freq)].
    [1 / freq] is a Python float division ([ZeroDivisionError] on [0]);
    [int(period / time_per_sample)] is [Waveform.int_of_div]. *)
Definition calculate_flicker_index_body (data : list (Q * Q)) (v_avg freq : Q) : result Q :=
  period <- (if Qeq_bool freq 0 then Raise ZeroDivisionError else Ok (1 / freq)) ;;
  r1 <- Py.get data 1 ;;
  r0 <- Py.get data 0 ;;
  let time_per_sample := fst r1 - fst r0 in
  samples_per_period <- Waveform.int_of_div period time_per_sample ;;
  let start_idx := find_rising_edge (map snd data) v_avg in
  let end_idx := Z.min (Z.of_nat start_idx + samples_per_period)
                       (Z.of_nat (List.length data)) in
  let one_period_data := Py.slice data (Z.of_nat start_idx) end_idx in
  let values := map snd one_period_data in
  let above_avg := map (fun v => v - v_avg) (filter (fun v => Qlt_bool v_avg v) values) in
  let below_avg := map (fun v => v_avg - v) (filter (fun v => Qlt_bool v v_avg) values) in
  let area_above := Estimator.sum above_avg in
  let area_below := Estimator.sum below_avg in
  let total_area := area_above + area_below in
  if Qlt_bool 0 total_area then Ok ((area_above - area_below) / total_area)
  else Ok 0.

(** [except Exception: return 0.0]. *)
Definition calculate_flicker_index (data : list (Q * Q)) (v_avg freq : Q) : Q :=
  match calculate_flicker_index_body data v_avg freq with
  | Ok r => r
  | Raise _ => 0
  end.

(** [_is_likely_fundamental(candidate, all_peaks)]: counts the harmonics
    [2 .. 5] that some peak matches within 5 %. *)
Definition is_likely_fundamental (candidate : Q) (all_peaks : list Q) : bool :=
  let harmonics_found :=
    fold_left
      (fun found harmonic =>
         let expected_freq := candidate * harmonic in
         let tolerance := expected_freq * (5#100) in
         if existsb (fun p => Qlt_bool (Qabs (p - expected_freq)) tolerance) all_peaks
         then S found else found)
      [2; 3; 4; 5] O in
  (1 <=? harmonics_found)%nat.

End Analyzer.

(** ** Reference description of a directory listing *)

Module Listing.

(** A file that [get_files_in_directory] keeps: its name starts with a
    character other than ['.']. *)
Definition visible (f : string) : bool :=
  match f with
  | String c _ => negb (Ascii.eqb c "."%char)
  | EmptyString => false
  end.

Definition ends_with_slash (d : string) : bool :=
  match rev (WaveformClass.chars d) with
  | c :: _ => Ascii.eqb c "/"%char
  | [] => false
  end.

(** [d] and [f] joined by exactly one ['/'] when [d] does not end in one. *)
Definition join_path (d f : string) : string :=
  if ends_with_slash d then (d ++ f)%string else (d ++ "/" ++ f)%string.

End Listing.

(** ** Concrete inputs *)

Module Inputs.

(** A falling then rising waveform; its midrange is [2.5]. *)
Definition c3data : list (Q * Q) :=
  [(0,5); (1,2); (2,1); (3,0); (4,1); (5,2); (6,3)].

(** A ramp of six samples; its midrange is [2.5]. *)
Definition ramp6 : list (Q * Q) :=
  [(0,0); (1,1); (2,2); (3,3); (4,4); (5,5)].

(** Three periods of a square wave, ten samples per period. *)
Definition square30 : list Q :=
  concat (repeat (repeat 1 5 ++ repeat (-1) 5) 3).

(** A flat waveform: twenty samples of [1.0]. *)
Definition flat20 : list (Q * Q) :=
  map (fun i => (inject_Z (Z.of_nat i), 1)) (seq 0 20).

(** Four periods of a triangle wave sampled at 1 kHz, eight samples per
    period (250 Hz), between [0] and [4]. *)
Definition tri32 : list (Q * Q) :=
  map (fun i => (inject_Z (Z.of_nat i) / 1000,
                 nth (i mod 8) [2; 3; 4; 3; 2; 1; 0; 1] 0)) (seq 0 32).

(** A [savgol_filter] that always raises. *)
Definition savgol_raise (_ : list Q) (_ _ : nat) : result (list Q) := Raise ValueError.

End Inputs.

(** * Properties *)

Import Inputs.

(** ** Standards evaluator *)

(** C1 (code slip): below 90 Hz the source falls through from the
    [frequency < 90] block into the [<= 3 kHz] thresholds.  At 80 Hz and
    2.4 % flicker ([>= 0.025 * 80 = 2]) the result is ["No Risk"]
    ([2.4 < 0.0333 * 80]), not ["High Risk"]. *)
Lemma C1_ieee_below_90_falls_through :
  (1#40) * 80 <= 12#5 /\
  Standards.ieee_1789_2015 80 (12#5) = "No Risk"%string.
Proof. split; [vm_compute; discriminate | reflexivity]. Qed.

(** C6: [ieee_1789_2015] is total: for every frequency and percent flicker
    it returns one of ["No Risk"], ["Low Risk"], ["High Risk"]. *)
Theorem C6_ieee_total (frequency percent_flicker : Q) :
  Standards.ieee_1789_2015 frequency percent_flicker = "No Risk"%string \/
  Standards.ieee_1789_2015 frequency percent_flicker = "Low Risk"%string \/
  Standards.ieee_1789_2015 frequency percent_flicker = "High Risk"%string.
Proof.
  unfold Standards.ieee_1789_2015.
  repeat match goal with
         | |- context [if ?b then _ else _] => destruct b
         end; auto.
Qed.

(** ** Percent flicker *)

(** C8: [percent_flicker] is invariant under scaling [v_max] and [v_pp] by
    the same [k > 0]. *)
Theorem C8_percent_flicker_scale_invariant (v_max v_pp k : Q) :
  ~ v_max == 0 -> 0 < k ->
  Metrics.percent_flicker (k * v_max) (k * v_pp)
  == Metrics.percent_flicker v_max v_pp.
Proof.
  intros Hm Hk. unfold Metrics.percent_flicker.
  field. split; [exact Hm|]. intro E. rewrite E in Hk. apply (Qlt_irrefl 0 Hk).
Qed.

Lemma C8_witness :
  (~ 2 == 0 /\ 0 < 3) /\
  Metrics.percent_flicker (3 * 2) (3 * 1) == Metrics.percent_flicker 2 1.
Proof.
  split; [split; [discriminate | reflexivity]|].
  apply (C8_percent_flicker_scale_invariant 2 1 3); [discriminate | reflexivity].
Defined.

(** ** Flicker index *)

(** C2 (code slip): [flicker_index] divides unconditionally.  On the
    period [-2, -1, -2] (midrange [-1.5]) the Simpson denominator is
    [-8/3 <= 0] and the result is [-1/4], not [0.0]. *)
Lemma C2_flicker_index_negative_denominator :
  Simpson.simpson [-2; -1; -2] == -(8#3) /\
  match Waveform.flicker_index [(0,-2); (1,-1); (2,-2)] (-(3#2)) with
  | Some r => r == -(1#4)
  | None => False
  end.
Proof. split; vm_compute; reflexivity. Qed.

(** C7 refuted: samples in [[v_min, v_max] = [-10, 12]] (midrange [1]) give
    a flicker index of [11/7 > 1]. *)
Lemma C7_flicker_index_above_one :
  Forall (fun v => -10 <= v <= 12) [-10; 12; -10] /\
  match Waveform.flicker_index [(0,-10); (1,12); (2,-10)] ((12 + -10) / 2) with
  | Some r => 1 < r
  | None => False
  end.
Proof.
  split.
  - repeat constructor; vm_compute; discriminate.
  - vm_compute. reflexivity.
Qed.

(** ** Period extraction *)

(** C3 (code slip): the recursive call returns an index into the tail
    [array[idx+1:]] without adding [idx + 1].  On [c3data] the search
    returns [3], where the original array holds its minimum [0] after a
    fall; the rising edge nearest to [2.5] is at index [5].  [n_periods]
    therefore starts its slice at the falling sample. *)
Lemma C3_rising_search_loses_offset :
  Waveform.find_nearest_idx_rising (map snd c3data) (5#2) = Ok 3%nat /\
  ~ (nth 2 (map snd c3data) 0 < nth 3 (map snd c3data) 0) /\
  (nth 4 (map snd c3data) 0 < nth 5 (map snd c3data) 0 /\
   nth 5 (map snd c3data) 0 < nth 6 (map snd c3data) 0) /\
  Waveform.n_periods c3data (5#2) 2 1 = Ok [(0,0); (1,1)].
Proof.
  split; [reflexivity|]. split; [vm_compute; discriminate|].
  split; [split; reflexivity | reflexivity].
Qed.

(** C5 refuted: with the rising edge at index [2] of [ramp6], two periods
    of three samples need six samples but only four remain; [n_periods]
    returns those four instead of raising. *)
Lemma C5_n_periods_returns_short_slice :
  Waveform.find_nearest_idx_rising (map snd ramp6) (5#2) = Ok 2%nat /\
  Waveform.n_periods ramp6 (5#2) 3 2 = Ok [(0,2); (1,3); (2,4); (3,5)].
Proof. split; reflexivity. Qed.

(** ** Zero-crossing method *)

(** C9 (code slip): equal crossing intervals have [np.std = 0], and the
    strict test [|d - median| < 2 * std] then discards every interval.  A
    square wave of period ten samples at 1 kHz has five crossings with
    intervals [5, 5, 5, 5]; none is farther than [2 std] from the median,
    so the stated rule gives [1000 / (2 * 5) = 100] Hz, but the method
    returns no candidate. *)
Lemma C9_equal_intervals_rejected :
  Estimator.zero_crossings square30 = [4; 9; 14; 19; 24]%nat /\
  Estimator.diffs (Estimator.zero_crossings square30) = [5; 5; 5; 5]%nat /\
  Estimator.improved_zero_crossing_detection square30 1000 = None.
Proof. repeat split; reflexivity. Qed.

(** ** Frequency fallback *)

(** C4 refuted: a flat waveform does reach a candidate.  Twenty samples of
    [1.0] are not smoothed ([<= 50] samples); the centred signal is zero,
    whose [np.std] is [sqrt 0 = 0], so it is not rescaled.  It has no zero
    crossings, but the autocorrelation method falls back to the start of its
    lag window and returns [10000 / int(10000 / 1000) = 1000] Hz. *)
Lemma C4_flat_waveform_has_candidate :
  let cleaned :=
    Estimator.preprocess_signal (fun x _ _ => x) (fun _ => 0) (map snd flat20) in
  Estimator.improved_zero_crossing_detection cleaned 10000 = None /\
  match Estimator.improved_autocorrelation_detection cleaned 10000 with
  | Some f => f == 1000
  | None => False
  end.
Proof. split; vm_compute; reflexivity. Qed.

(** ** Consensus *)

Module ConsensusFacts.
Import Estimator.

Lemma Qlt_bool_true x y : Qlt_bool x y = true -> x < y.
Proof.
  unfold Qlt_bool. intro H. apply negb_true_iff in H.
  apply Qnot_le_lt. intro Hle. apply Qle_bool_iff in Hle. congruence.
Qed.

Lemma Qlt_bool_false x y : Qlt_bool x y = false -> y <= x.
Proof.
  unfold Qlt_bool. intro H. apply negb_false_iff in H. now apply Qle_bool_iff.
Qed.

Lemma insert_perm x l : Permutation (insert_by (fun q => q) x l) (x :: l).
Proof.
  induction l as [|a l IH]; simpl; [auto|].
  destruct (Qlt_bool x a); [auto|].
  eapply perm_trans; [apply perm_skip, IH | apply perm_swap].
Qed.

Lemma isort_fold_perm l acc :
  Permutation (fold_left (fun acc x => insert_by (fun q => q) x acc) l acc) (l ++ acc).
Proof.
  revert acc; induction l as [|x l IH]; intro acc; simpl; [auto|].
  eapply perm_trans; [apply IH|].
  eapply perm_trans; [apply Permutation_app_head, insert_perm|].
  apply Permutation_sym, Permutation_middle.
Qed.

Lemma isort_perm l : Permutation (isort l) l.
Proof.
  unfold isort, isort_by. rewrite <- (app_nil_r l) at 2. apply isort_fold_perm.
Qed.

Lemma insert_sorted x l :
  Sorted Qle l -> Sorted Qle (insert_by (fun q => q) x l).
Proof.
  induction l as [|a l IH]; intro Hs; simpl.
  - repeat constructor.
  - destruct (Qlt_bool x a) eqn:E.
    + constructor; [exact Hs|]. constructor. apply Qlt_le_weak, Qlt_bool_true, E.
    + apply Qlt_bool_false in E. inversion Hs as [|? ? Hl Hh]; subst.
      constructor; [now apply IH|].
      destruct l as [|b l]; simpl; [now constructor|].
      destruct (Qlt_bool x b); constructor; [exact E|].
      now inversion Hh.
Qed.

Lemma isort_sorted l : Sorted Qle (isort l).
Proof.
  unfold isort, isort_by.
  assert (H : forall acc, Sorted Qle acc ->
            Sorted Qle (fold_left (fun acc x => insert_by (fun q => q) x acc) l acc)).
  { induction l as [|x l IH]; intros acc Hacc; simpl; [exact Hacc|].
    apply IH, insert_sorted, Hacc. }
  apply H. constructor.
Qed.

(** The head of [sorted(l)] is an element of [l] below all of [l]. *)
Lemma isort_head l h t :
  isort l = h :: t -> In h l /\ Forall (Qle h) l.
Proof.
  intro E. pose proof (isort_perm l) as P. rewrite E in P.
  pose proof (isort_sorted l) as S. rewrite E in S.
  apply Sorted_StronglySorted in S; [|intros a b c; apply Qle_trans].
  inversion S as [|? ? _ Ht]; subst.
  split; [apply (Permutation_in _ P); now left|].
  apply Forall_forall. intros y Hy.
  apply (Permutation_in _ (Permutation_sym P)) in Hy.
  destruct Hy as [<-|Hy]; [apply Qle_refl|].
  rewrite Forall_forall in Ht. now apply Ht.
Qed.

Lemma fold_min_spec r x :
  let m := fold_left (fun acc y => if Qlt_bool y acc then y else acc) r x in
  (m = x \/ In m r) /\ m <= x /\ Forall (Qle m) r.
Proof.
  revert x; induction r as [|y r IH]; intro x; simpl.
  - split; [now left|]. split; [apply Qle_refl | constructor].
  - destruct (Qlt_bool y x) eqn:E.
    + destruct (IH y) as [Hin [Hle Hall]].
      split; [destruct Hin; [right; left; auto | right; right; auto]|].
      apply Qlt_bool_true in E.
      split; [apply Qle_trans with y; [exact Hle | now apply Qlt_le_weak]|].
      now constructor.
    + apply Qlt_bool_false in E. destruct (IH x) as [Hin [Hle Hall]].
      split; [destruct Hin; [left; auto | right; right; auto]|].
      split; [exact Hle|]. constructor; [|exact Hall].
      now apply Qle_trans with x.
Qed.

Lemma py_min_spec l m : py_min l = Ok m -> In m l /\ Forall (Qle m) l.
Proof.
  destruct l as [|x r]; simpl; [discriminate|]. intro E. injection E as <-.
  destruct (fold_min_spec r x) as [Hin [Hle Hall]].
  split; [destruct Hin as [->|Hin]; [now left | now right]|].
  now constructor.
Qed.

Lemma py_min_head x r : Forall (Qle x) r -> py_min (x :: r) = Ok x.
Proof.
  simpl. intro H. f_equal. revert H. induction r as [|y r IH]; intro H; simpl; auto.
  inversion H as [|? ? Hy Hr]; subst.
  destruct (Qlt_bool y x) eqn:E.
  - apply Qlt_bool_true in E. exfalso. apply (Qlt_not_le _ _ E Hy).
  - now apply IH.
Qed.

Lemma suppress_extends s fc fc' :
  suppress_harmonics fc s = Ok fc' -> exists suf, fc' = fc ++ suf /\ incl suf s.
Proof.
  revert fc; induction s as [|f s IH]; intros fc E; simpl in E.
  - injection E as <-. exists []. split; [now rewrite app_nil_r | intros ? []].
  - destruct (is_harmonic f fc) as [[|]|]; [| |discriminate].
    + destruct (IH _ E) as [suf [-> Hi]]. exists suf. split; [auto|].
      intros y Hy. right. now apply Hi.
    + destruct (IH _ E) as [suf [-> Hi]]. exists (f :: suf).
      rewrite <- app_assoc. split; [auto|].
      intros y [<-|Hy]; [now left | right; now apply Hi].
Qed.

End ConsensusFacts.

Import ConsensusFacts.

(** C10: on a non-empty candidate list, harmonic suppression keeps the
    lowest candidate (so the "suppression removes everything" branch is
    never taken) and [_find_fundamental_frequency] returns [min(candidates)]. *)
Theorem C10_fundamental_is_min (candidates : list Q) :
  candidates <> [] ->
  (forall fc, Estimator.suppress_harmonics [] (Estimator.isort candidates) = Ok fc ->
              fc <> []) /\
  exists m, Estimator.py_min candidates = Ok m /\
            Estimator.find_fundamental_frequency candidates == m.
Proof.
  intro Hne.
  destruct (Estimator.isort candidates) as [|h t] eqn:Es.
  { exfalso. pose proof (isort_perm candidates) as P. rewrite Es in P.
    apply Permutation_nil in P. now apply Hne. }
  destruct (isort_head _ _ _ Es) as [Hin Hall].
  assert (Hsup : forall fc, Estimator.suppress_harmonics [] (h :: t) = Ok fc ->
                 exists suf, fc = h :: suf /\ incl suf t).
  { intros fc E. simpl in E. now apply suppress_extends in E. }
  split.
  { intros fc E. destruct (Hsup fc E) as [suf [-> _]]. discriminate. }
  destruct candidates as [|x r]; [now exfalso|].
  eexists; split; [reflexivity|].
  set (m := fold_left _ r x).
  assert (Hm : Estimator.py_min (x :: r) = Ok m) by reflexivity.
  destruct (py_min_spec _ _ Hm) as [Hmin Hmall].
  assert (Hhm : h == m).
  { apply Qle_antisym.
    - rewrite Forall_forall in Hall. now apply Hall.
    - rewrite Forall_forall in Hmall. now apply Hmall. }
  unfold Estimator.find_fundamental_frequency, Estimator.find_fundamental_body.
  destruct r as [|y r'].
  { reflexivity. }
  rewrite Es.
  destruct (Estimator.suppress_harmonics [] (h :: t)) as [fc|e] eqn:Ef; simpl.
  - destruct (Hsup fc eq_refl) as [suf [-> Hi]].
    rewrite py_min_head; [exact Hhm|].
    apply Forall_forall. intros z Hz.
    assert (Hzc : In z (x :: y :: r')).
    { apply (Permutation_in _ (isort_perm _)). rewrite Es. right. now apply Hi. }
    rewrite Forall_forall in Hall. now apply Hall.
  - reflexivity.
Qed.

(** ** Period extraction: the slice past the end *)

Module PeriodFacts.

Lemma get_in_range {A : Type} (l : list A) (i : Z) (d : A) :
  (0 <= i < Z.of_nat (List.length l))%Z -> Py.get l i = Ok (nth (Z.to_nat i) l d).
Proof.
  intro H. unfold Py.get.
  assert (E : ((0 <=? i) && (i <? Z.of_nat (List.length l)))%Z = true)
    by (apply andb_true_iff; split; [apply Z.leb_le | apply Z.ltb_lt]; lia).
  rewrite E. rewrite (nth_error_nth' l (n := Z.to_nat i) d) by lia. reflexivity.
Qed.

Lemma get_ok_negative {A : Type} (l : list A) (i : Z) :
  (- Z.of_nat (List.length l) <= i < 0)%Z -> exists x, Py.get l i = Ok x.
Proof.
  intro H. destruct l as [|a r]; [simpl in H; lia|].
  unfold Py.get.
  assert (E1 : ((0 <=? i) && (i <? Z.of_nat (List.length (a :: r))))%Z = false)
    by (apply andb_false_iff; left; apply Z.leb_gt; lia).
  assert (E2 : ((- Z.of_nat (List.length (a :: r)) <=? i) && (i <? 0))%Z = true)
    by (apply andb_true_iff; split; [apply Z.leb_le | apply Z.ltb_lt]; lia).
  rewrite E1, E2.
  rewrite (nth_error_nth' (a :: r) (n := Z.to_nat (Z.of_nat (List.length (a :: r)) + i)) a) by lia. eauto.
Qed.

Lemma get_ok {A : Type} (l : list A) (i : Z) :
  (- Z.of_nat (List.length l) <= i < Z.of_nat (List.length l))%Z ->
  exists x, Py.get l i = Ok x.
Proof.
  intro H. destruct (Z.ltb_spec i 0).
  - apply get_ok_negative. lia.
  - destruct l as [|a r]; [simpl in H; lia|].
    exists (nth (Z.to_nat i) (a :: r) a). apply get_in_range. lia.
Qed.

Lemma get_ok_lt {A : Type} (l : list A) (i : nat) (x : A) :
  Py.get l (Z.of_nat i) = Ok x -> (i < List.length l)%nat.
Proof.
  unfold Py.get.
  destruct ((0 <=? Z.of_nat i) && (Z.of_nat i <? Z.of_nat (List.length l)))%Z eqn:E.
  - intros _. apply andb_true_iff in E as [_ E]. apply Z.ltb_lt in E. lia.
  - destruct ((- Z.of_nat (List.length l) <=? Z.of_nat i) && (Z.of_nat i <? 0))%Z eqn:E2.
    + apply andb_true_iff in E2 as [_ E2]. apply Z.ltb_lt in E2. lia.
    + discriminate.
Qed.

(** The rising-edge search returns an index of the array it was given. *)
Lemma rising_fuel_lt fuel array value idx :
  Waveform.find_nearest_idx_rising_fuel fuel array value = Ok idx ->
  (idx < List.length array)%nat.
Proof.
  revert array; induction fuel as [|fuel IH]; intros array; simpl; [discriminate|].
  destruct (Waveform.find_nearest_idx array value) as [i|e]; simpl; [|discriminate].
  destruct (Py.get array (Z.of_nat i)) as [x|e] eqn:Ex; simpl; [|discriminate].
  destruct (Py.get array (Z.of_nat i - 1)) as [p|e]; simpl; [|discriminate].
  assert (Hi : (i < List.length array)%nat) by (eapply get_ok_lt; eauto).
  assert (Hsk : forall j, (j < List.length (skipn (S i) array))%nat ->
                          (j < List.length array)%nat)
    by (intros j Hj; rewrite length_skipn in Hj; lia).
  destruct (Qlt_bool p x).
  - destruct (Py.get array (Z.of_nat i + 1)) as [n|e]; simpl; [|discriminate].
    destruct (Qlt_bool x n).
    + intro E. injection E as <-. exact Hi.
    + intro E. apply Hsk. eapply IH; eauto.
  - intro E. apply Hsk. eapply IH; eauto.
Qed.

Lemma rising_lt array value idx :
  Waveform.find_nearest_idx_rising array value = Ok idx ->
  (idx < List.length array)%nat.
Proof. apply rising_fuel_lt. Qed.

Lemma slice_to_end {A : Type} (l : list A) (a b : Z) :
  (0 <= a <= Z.of_nat (List.length l))%Z -> (Z.of_nat (List.length l) <= b)%Z ->
  Py.slice l a b = skipn (Z.to_nat a) l.
Proof.
  intros Ha Hb. unfold Py.slice, Py.slice_bound.
  destruct (Z.ltb_spec a 0); [lia|]. destruct (Z.ltb_spec b 0); [lia|].
  rewrite (Z.min_l a) by lia. rewrite (Z.min_r b) by lia.
  apply firstn_all2. rewrite length_skipn. lia.
Qed.

End PeriodFacts.

(** C5 as the code behaves: [n_periods] never raises
    [InsufficientDataError].  When the period index [idx_1] is readable and
    the rising-edge search finds [idx], a requested slice reaching past the
    end of the data is cut at the end: the result is every row from [idx]
    on, shifted to start at time 0. *)
Theorem C5_n_periods_truncated_slice (data : list (Q * Q)) (v_avg period : Q)
  (num_periods : Z) (idx : nat) :
  (2 <= List.length data)%nat ->
  ~ fst (nth 1 data (0%Q,0%Q)) - fst (nth 0 data (0%Q,0%Q)) == 0 ->
  (- Z.of_nat (List.length data)
     <= Py.trunc (period / (fst (nth 1 data (0%Q,0%Q)) - fst (nth 0 data (0%Q,0%Q))))
     < Z.of_nat (List.length data))%Z ->
  Waveform.find_nearest_idx_rising (map snd data) v_avg = Ok idx ->
  (Z.of_nat (List.length data)
     <= Z.of_nat idx + num_periods
          * Py.trunc (period / (fst (nth 1 data (0%Q,0%Q)) - fst (nth 0 data (0%Q,0%Q)))))%Z ->
  Waveform.n_periods data v_avg period num_periods =
  Ok (map (fun r => (fst r - fst (nth idx data (0%Q,0%Q)), snd r)) (skipn idx data)).
Proof.
  intros Hlen Hdelta Hidx1 Hrise Hend.
  pose proof (PeriodFacts.rising_lt _ _ _ Hrise) as Hlt.
  rewrite length_map in Hlt.
  unfold Waveform.n_periods.
  rewrite (PeriodFacts.get_in_range data 0 (0%Q,0%Q)) by lia. simpl bind.
  rewrite (PeriodFacts.get_in_range data 1 (0%Q,0%Q)) by lia.
  change (Z.to_nat 1) with 1%nat. simpl bind.
  unfold Waveform.int_of_div.
  destruct (Qeq_bool (fst (nth 1 data (0%Q,0%Q)) - fst (nth 0 data (0%Q,0%Q))) 0) eqn:Eq.
  { apply Qeq_bool_iff in Eq. contradiction. }
  simpl bind.
  destruct (PeriodFacts.get_ok data _ Hidx1) as [r1 Hr1].
  rewrite Hr1. simpl bind.
  rewrite Hrise. simpl bind.
  rewrite PeriodFacts.slice_to_end by lia. rewrite Nat2Z.id.
  rewrite (PeriodFacts.get_in_range (skipn idx data) 0 (0%Q,0%Q))
    by (rewrite length_skipn; lia).
  simpl bind. rewrite nth_skipn, Nat.add_0_r. reflexivity.
Qed.

Lemma C5_witness :
  ((2 <= List.length ramp6)%nat /\
   ~ fst (nth 1 ramp6 (0%Q,0%Q)) - fst (nth 0 ramp6 (0%Q,0%Q)) == 0 /\
   (- Z.of_nat (List.length ramp6)
      <= Py.trunc (3 / (fst (nth 1 ramp6 (0%Q,0%Q)) - fst (nth 0 ramp6 (0%Q,0%Q))))
      < Z.of_nat (List.length ramp6))%Z /\
   Waveform.find_nearest_idx_rising (map snd ramp6) (5#2) = Ok 2%nat /\
   (Z.of_nat (List.length ramp6)
      <= Z.of_nat 2 + 2 * Py.trunc (3 / (fst (nth 1 ramp6 (0%Q,0%Q))
                                          - fst (nth 0 ramp6 (0%Q,0%Q)))))%Z) /\
  Waveform.n_periods ramp6 (5#2) 3 2 =
  Ok (map (fun r => (fst r - fst (nth 2 ramp6 (0%Q,0%Q)), snd r)) (skipn 2 ramp6)).
Proof.
  split.
  - repeat split; vm_compute; first [reflexivity | lia | intro H; discriminate H].
  - apply C5_n_periods_truncated_slice;
      try split; vm_compute; first [reflexivity | lia | intro H; discriminate H].
Defined.

(** ** Frequency fallback *)

(** C4 as the code behaves: whenever none of the three methods (FFT,
    autocorrelation, zero crossings) yields a candidate,
    [_detect_flicker_frequency] returns [120.0] Hz.  A flat waveform does not
    always get there (twenty samples of [1.0] at 10 kHz give 1000 Hz). *)
Theorem C4_no_candidate_fallback
  (savgol_filter : list Q -> nat -> nat -> list Q) (sqrt : Q -> Q)
  (fft : list Q -> Z -> option Q) (data : list (Q * Q)) (framerate : Z) :
  fft (Estimator.preprocess_signal savgol_filter sqrt (map snd data)) framerate = None ->
  Estimator.improved_autocorrelation_detection
    (Estimator.preprocess_signal savgol_filter sqrt (map snd data)) framerate = None ->
  Estimator.improved_zero_crossing_detection
    (Estimator.preprocess_signal savgol_filter sqrt (map snd data)) framerate = None ->
  Estimator.detect_flicker_frequency savgol_filter sqrt fft data framerate = 120.
Proof.
  intros Hf Ha Hz. unfold Estimator.detect_flicker_frequency.
  rewrite Hf, Ha, Hz. reflexivity.
Qed.

(** At 500 samples per second the lag window starts at [0], [find_peaks]
    gets [distance = 0] and raises, so the autocorrelation method gives no
    candidate on the flat waveform either. *)
Lemma C4_witness :
  let savgol_filter := fun (x : list Q) (_ _ : nat) => x in
  let sqrt := fun _ : Q => 0 in
  let fft := fun (_ : list Q) (_ : Z) => @None Q in
  (fft (Estimator.preprocess_signal savgol_filter sqrt (map snd flat20)) 500%Z = None /\
   Estimator.improved_autocorrelation_detection
     (Estimator.preprocess_signal savgol_filter sqrt (map snd flat20)) 500%Z = None /\
   Estimator.improved_zero_crossing_detection
     (Estimator.preprocess_signal savgol_filter sqrt (map snd flat20)) 500%Z = None) /\
  Estimator.detect_flicker_frequency savgol_filter sqrt fft flat20 500 = 120.
Proof.
  intros savgol_filter sqrt fft.
  assert (Ha : Estimator.improved_autocorrelation_detection
     (Estimator.preprocess_signal savgol_filter sqrt (map snd flat20)) 500%Z = None)
    by (vm_compute; reflexivity).
  assert (Hz : Estimator.improved_zero_crossing_detection
     (Estimator.preprocess_signal savgol_filter sqrt (map snd flat20)) 500%Z = None)
    by (vm_compute; reflexivity).
  split; [split; [reflexivity | split; assumption]|].
  apply C4_no_candidate_fallback; [reflexivity | exact Ha | exact Hz].
Defined.

(** ** Simpson integration is monotone *)

Module SimpsonFacts.
Import Simpson.

Ltac third := unfold Qdiv; change (/ 3) with (1#3).

Lemma Forall2_nth_le xs ys : Forall2 Qle xs ys -> forall i, nth i xs 0 <= nth i ys 0.
Proof. induction 1; intros [|i]; simpl; auto using Qle_refl. Qed.

Lemma Forall2_firstn n xs ys :
  Forall2 Qle xs ys -> Forall2 Qle (firstn n xs) (firstn n ys).
Proof.
  revert xs ys; induction n as [|n IH]; intros xs ys H; simpl; [constructor|].
  destruct H; simpl; constructor; auto.
Qed.

Lemma basic_mono n : forall xs ys, (List.length xs <= n)%nat ->
  Forall2 Qle xs ys -> basic_simpson xs <= basic_simpson ys.
Proof.
  induction n as [|n IH]; intros xs ys Hl H.
  - destruct H; [apply Qle_refl | simpl in Hl; lia].
  - destruct H as [|a a' xs1 ys1 Ha H1]; [apply Qle_refl|].
    destruct H1 as [|b b' xs2 ys2 Hb H2]; [simpl; apply Qle_refl|].
    destruct H2 as [|c c' xs3 ys3 Hc H3]; [simpl; apply Qle_refl|].
    assert (IHc : basic_simpson (c :: xs3) <= basic_simpson (c' :: ys3))
      by (apply IH; [simpl in *; lia | now constructor]).
    change (basic_simpson (a :: b :: c :: xs3))
      with ((a + 4 * b + c) / 3 + basic_simpson (c :: xs3)).
    change (basic_simpson (a' :: b' :: c' :: ys3))
      with ((a' + 4 * b' + c') / 3 + basic_simpson (c' :: ys3)).
    third. lra.
Qed.

(** On an odd number of at least three samples, the second-to-last sample
    carries weight [4/3]. *)
Lemma basic_mono_stl n : forall xs ys, (List.length xs <= n)%nat ->
  Nat.odd (List.length xs) = true -> (3 <= List.length xs)%nat ->
  Forall2 Qle xs ys ->
  (4#3) * (nth (List.length xs - 2) ys 0 - nth (List.length xs - 2) xs 0)
  <= basic_simpson ys - basic_simpson xs.
Proof.
  induction n as [|n IH]; intros xs ys Hl Hodd H3 H; [lia|].
  destruct H as [|a a' xs1 ys1 Ha H1]; [simpl in H3; lia|].
  destruct H1 as [|b b' xs2 ys2 Hb H2]; [simpl in H3; lia|].
  destruct H2 as [|c c' xs3 ys3 Hc H3']; [simpl in H3; lia|].
  change (basic_simpson (a :: b :: c :: xs3))
    with ((a + 4 * b + c) / 3 + basic_simpson (c :: xs3)).
  change (basic_simpson (a' :: b' :: c' :: ys3))
    with ((a' + 4 * b' + c') / 3 + basic_simpson (c' :: ys3)).
  destruct H3' as [|d d' xs4 ys4 Hd H4].
  - simpl. third. lra.
  - destruct H4 as [|e e' xs5 ys5 He H5]; [discriminate Hodd|].
    assert (IHc := IH (c :: d :: e :: xs5) (c' :: d' :: e' :: ys5)
                      ltac:(simpl in *; lia) Hodd ltac:(simpl; lia)
                      ltac:(repeat constructor; assumption)).
    simpl length in IHc |- *.
    replace (S (S (S (S (S (List.length xs5))))) - 2)%nat
      with (S (S (S (List.length xs5)))) by lia.
    replace (S (S (S (List.length xs5))) - 2)%nat
      with (S (List.length xs5)) in IHc by lia.
    simpl nth in IHc |- *. third. lra.
Qed.

Lemma simpson_mono xs ys : Forall2 Qle xs ys -> simpson xs <= simpson ys.
Proof.
  intro H. pose proof (Forall2_length H) as Hlen.
  pose proof (Forall2_nth_le _ _ H) as Hn.
  unfold simpson. rewrite <- Hlen.
  remember (List.length xs) as N eqn:HN.
  destruct (Nat.even N) eqn:Ev.
  - destruct (N =? 2)%nat eqn:E2.
    + pose proof (Hn 0%nat). pose proof (Hn 1%nat). lra.
    + destruct N as [|N'].
      * destruct xs; [|discriminate]. destruct ys; [|discriminate]. apply Qle_refl.
      * assert (H4 : (4 <= S N')%nat).
        { destruct N' as [|[|[|k]]]; try discriminate; lia. }
        assert (Hodd : Nat.odd (List.length (firstn (S N' - 1) xs)) = true).
        { rewrite length_firstn, <- HN, Nat.min_l by lia.
          rewrite Nat.sub_1_r, Nat.pred_succ. rewrite <- Nat.even_succ. exact Ev. }
        assert (Hl1 : List.length (firstn (S N' - 1) xs) = (S N' - 1)%nat)
          by (rewrite length_firstn, <- HN; lia).
        pose proof (basic_mono_stl _ _ _ (le_n _) Hodd ltac:(lia)
                      (Forall2_firstn (S N' - 1) _ _ H)) as Hb.
        rewrite Hl1, !nth_firstn in Hb.
        replace ((S N' - 1 - 2 <? S N' - 1)%nat) with true in Hb
          by (symmetry; apply Nat.ltb_lt; lia).
        replace (S N' - 1 - 2)%nat with (S N' - 3)%nat in Hb by lia.
        pose proof (Hn (S N' - 1)%nat). pose proof (Hn (S N' - 2)%nat).
        pose proof (Hn (S N' - 3)%nat).
        lra.
  - apply (basic_mono (List.length xs)); [lia | exact H].
Qed.

Lemma Forall_firstn {A : Type} (P : A -> Prop) n l :
  Forall P l -> Forall P (firstn n l).
Proof.
  revert l; induction n as [|n IH]; intros l H; simpl; [constructor|].
  destruct H; simpl; constructor; auto.
Qed.

Lemma Forall_nth_zero l i : Forall (fun x => x == 0) l -> nth i l 0 == 0.
Proof.
  intro H. revert i; induction H as [|x l Hx _ IH]; intros [|i]; simpl; auto.
  reflexivity. reflexivity.
Qed.

Lemma basic_zero n : forall l, (List.length l <= n)%nat ->
  Forall (fun x => x == 0) l -> basic_simpson l == 0.
Proof.
  induction n as [|n IH]; intros l Hl H.
  - destruct l; [reflexivity | simpl in Hl; lia].
  - destruct l as [|a [|b [|c r]]]; try reflexivity.
    inversion H as [|? ? Ha Hr]; subst. inversion Hr as [|? ? Hb Hr']; subst.
    inversion Hr' as [|? ? Hc Hr'']; subst.
    change (basic_simpson (a :: b :: c :: r))
      with ((a + 4 * b + c) / 3 + basic_simpson (c :: r)).
    assert (IHc : basic_simpson (c :: r) == 0)
      by (apply IH; [simpl in *; lia | now constructor]).
    rewrite IHc, Ha, Hb, Hc. reflexivity.
Qed.

Lemma simpson_zero l : Forall (fun x => x == 0) l -> simpson l == 0.
Proof.
  intro H. unfold simpson.
  destruct (Nat.even (List.length l)); [destruct (List.length l =? 2)%nat|].
  - rewrite !Forall_nth_zero by exact H. reflexivity.
  - rewrite (basic_zero (List.length l)); [| rewrite length_firstn; lia
                                          | apply Forall_firstn, H].
    rewrite !Forall_nth_zero by exact H. reflexivity.
  - apply (basic_zero (List.length l)); [lia | exact H].
Qed.

(** Simpson's rule of a non-negative sampling is non-negative. *)
Lemma simpson_nonneg l : Forall (Qle 0) l -> 0 <= simpson l.
Proof.
  intro H.
  assert (Z0 : simpson (map (fun _ => 0) l) == 0).
  { apply simpson_zero. apply Forall_forall. intros x Hx.
    apply in_map_iff in Hx as [? [<- _]]. reflexivity. }
  apply Qle_trans with (simpson (map (fun _ => 0) l)); [rewrite Z0; apply Qle_refl|].
  apply simpson_mono.
  clear Z0. induction H as [|x l Hx _ IH]; simpl; [apply Forall2_nil | apply Forall2_cons; assumption].
Qed.

End SimpsonFacts.

(** C7 as the code behaves: for a non-negative sampling (light output,
    [0 <= v_min]) whose samples lie in [[v_min, v_max]], the flicker index
    computed with the midrange [v_avg] lies in [[0, 1]] whenever it is finite
    (it is [nan] only when the Simpson denominator is zero). *)
Theorem C7_flicker_index_bounded_nonneg (one_period : list (Q * Q)) (v_min v_max r : Q) :
  0 <= v_min ->
  Forall (fun v => v_min <= v <= v_max) (map snd one_period) ->
  Waveform.flicker_index one_period ((v_max + v_min) / 2) = Some r ->
  0 <= r <= 1.
Proof.
  intros H0 Hall Hfi. unfold Waveform.flicker_index in Hfi. cbv zeta in Hfi.
  rewrite map_map in Hfi.
  set (avg := (v_max + v_min) / 2) in *.
  set (vs := map snd one_period) in *.
  set (ct := map (fun x => (if Qlt_bool avg x then x else avg) - avg) vs) in Hfi.
  destruct (Qeq_bool (Simpson.simpson vs) 0) eqn:E; [discriminate|].
  injection Hfi as <-.
  assert (Hpt : forall v, v_min <= v <= v_max ->
            0 <= (if Qlt_bool avg v then v else avg) - avg /\
            (if Qlt_bool avg v then v else avg) - avg <= v).
  { intros v [Hlo Hhi].
    assert (Havg : 0 <= avg)
      by (unfold avg, Qdiv; change (/ 2) with (1#2); lra).
    destruct (Qlt_bool avg v) eqn:Ev.
    - apply ConsensusFacts.Qlt_bool_true in Ev. split; lra.
    - split; lra. }
  assert (Hct0 : Forall (Qle 0) ct).
  { unfold ct. apply Forall_forall. intros c Hc.
    apply in_map_iff in Hc as [v [<- Hv]].
    rewrite Forall_forall in Hall. now apply Hpt, Hall. }
  assert (Hle : Forall2 Qle ct vs).
  { unfold ct. clear - Hall Hpt. clearbody vs. induction Hall as [|v l Hv _ IH]; simpl; constructor.
    - now apply Hpt.
    - exact IH. }
  pose proof (SimpsonFacts.simpson_nonneg _ Hct0) as Htop.
  pose proof (SimpsonFacts.simpson_mono _ _ Hle) as Hmono.
  assert (Hpos : 0 < Simpson.simpson vs).
  { apply Qle_lteq in Hmono as [Hlt|Heq].
    - apply Qle_lt_trans with (Simpson.simpson ct); assumption.
    - apply Qle_lteq in Htop as [Hlt|Heq0]; [rewrite <- Heq; exact Hlt|].
      exfalso. assert (Hz : Simpson.simpson vs == 0) by (rewrite <- Heq, Heq0; reflexivity).
      apply Qeq_bool_iff in Hz. congruence. }
  split.
  - apply Qle_shift_div_l; [exact Hpos|]. rewrite Qmult_0_l. exact Htop.
  - apply Qle_shift_div_r; [exact Hpos|]. rewrite Qmult_1_l. exact Hmono.
Qed.

Lemma C7_witness :
  (0 <= 1 /\ Forall (fun v => 1 <= v <= 3) (map snd [(0,1); (1,3); (2,1)])) /\
  (match Waveform.flicker_index [(0,1); (1,3); (2,1)] ((3 + 1) / 2) with
   | Some r => 0 <= r <= 1
   | None => False
   end).
Proof.
  split.
  - split; [discriminate|]. repeat constructor; discriminate.
  - destruct (Waveform.flicker_index [(0,1); (1,3); (2,1)] ((3 + 1) / 2)) as [r|] eqn:E.
    + apply (C7_flicker_index_bounded_nonneg [(0,1); (1,3); (2,1)] 1 3 r);
        [discriminate | repeat constructor; discriminate | exact E].
    + vm_compute in E. discriminate E.
Defined.

Lemma C10_witness :
  [240; 120] <> [] /\
  ((forall fc, Estimator.suppress_harmonics [] (Estimator.isort [240; 120]) = Ok fc ->
               fc <> []) /\
   exists m, Estimator.py_min [240; 120] = Ok m /\
             Estimator.find_fundamental_frequency [240; 120] == m).
Proof.
  split; [discriminate|].
  apply (C10_fundamental_is_min [240; 120]). discriminate.
Defined.

(** * Further properties of the code *)

Module CompareFacts.

Lemma Qle_bool_false x y : Qle_bool x y = false -> y < x.
Proof.
  intro E. apply Qnot_le_lt. intro H. apply Qle_bool_iff in H. congruence.
Qed.

Lemma Qeq_bool_false x y : Qeq_bool x y = false -> ~ x == y.
Proof. intros E H. apply Qeq_bool_iff in H. congruence. Qed.

End CompareFacts.

(** Case analysis on every comparison of rationals in the goal and the
    hypotheses, turned into facts [lra] can use. *)
Ltac qcases :=
  repeat match goal with
  | |- context [Qlt_bool ?a ?b] =>
      let E := fresh "E" in destruct (Qlt_bool a b) eqn:E;
      [apply ConsensusFacts.Qlt_bool_true in E | apply ConsensusFacts.Qlt_bool_false in E]
  | |- context [Qle_bool ?a ?b] =>
      let E := fresh "E" in destruct (Qle_bool a b) eqn:E;
      [apply Qle_bool_iff in E | apply CompareFacts.Qle_bool_false in E]
  | H : context [Qlt_bool ?a ?b] |- _ =>
      let E := fresh "E" in destruct (Qlt_bool a b) eqn:E;
      [apply ConsensusFacts.Qlt_bool_true in E | apply ConsensusFacts.Qlt_bool_false in E]
  | H : context [Qle_bool ?a ?b] |- _ =>
      let E := fresh "E" in destruct (Qle_bool a b) eqn:E;
      [apply Qle_bool_iff in E | apply CompareFacts.Qle_bool_false in E]
  end.

(** ** Standards *)

(** At 90 Hz and above, the IEEE 1789-2015 rating never improves when the
    percent flicker grows: a ["High Risk"] rating stays ["High Risk"], and
    a ["No Risk"] rating at a higher percent flicker is also ["No Risk"] at
    a lower one. *)
Theorem ieee_monotone_in_percent (f p p' : Q) :
  90 <= f -> p <= p' ->
  (Standards.ieee_1789_2015 f p = "High Risk"%string ->
   Standards.ieee_1789_2015 f p' = "High Risk"%string) /\
  (Standards.ieee_1789_2015 f p' = "No Risk"%string ->
   Standards.ieee_1789_2015 f p = "No Risk"%string).
Proof.
  intros Hf Hp. unfold Standards.ieee_1789_2015.
  split; intro H; qcases; try lra; try discriminate; reflexivity.
Qed.

Lemma ieee_monotone_in_percent_witness :
  (90 <= 100 /\ 3 <= 10) /\
  (Standards.ieee_1789_2015 100 3 = "High Risk"%string ->
   Standards.ieee_1789_2015 100 10 = "High Risk"%string) /\
  (Standards.ieee_1789_2015 100 10 = "No Risk"%string ->
   Standards.ieee_1789_2015 100 3 = "No Risk"%string).
Proof.
  split; [split; discriminate|].
  apply (ieee_monotone_in_percent 100 3 10); discriminate.
Defined.

(** The IEEE 1789-2015 thresholds for a non-negative frequency: below
    [0.01 f] the rating is ["No Risk"] at every frequency; up to 3 kHz, at
    [0.08 f] or more it is ["High Risk"]; and ["Low Risk"] is only given at
    [f <= 1250 Hz] with [0.01 f <= p < 0.08 f]. *)
Theorem ieee_thresholds (f p : Q) :
  0 <= f ->
  (p < (1#100) * f -> Standards.ieee_1789_2015 f p = "No Risk"%string) /\
  (f <= 3000 -> (2#25) * f <= p ->
   Standards.ieee_1789_2015 f p = "High Risk"%string) /\
  (Standards.ieee_1789_2015 f p = "Low Risk"%string ->
   f <= 1250 /\ (1#100) * f <= p /\ p < (2#25) * f).
Proof.
  intro Hf. unfold Standards.ieee_1789_2015.
  split; [|split]; intros; qcases; try lra; try discriminate; try reflexivity;
    repeat split; lra.
Qed.

Lemma ieee_thresholds_witness :
  0 <= 100 /\
  ((1 < (1#100) * 100 -> Standards.ieee_1789_2015 100 1 = "No Risk"%string) /\
   (100 <= 3000 -> (2#25) * 100 <= 1 ->
    Standards.ieee_1789_2015 100 1 = "High Risk"%string) /\
   (Standards.ieee_1789_2015 100 1 = "Low Risk"%string ->
    100 <= 1250 /\ (1#100) * 100 <= 1 /\ 1 < (2#25) * 100)).
Proof. split; [discriminate | apply (ieee_thresholds 100 1); discriminate]. Defined.

(** California JA8 2019 and WELL v2 are monotone: a pass stays a pass at
    a higher frequency and a lower percent flicker. *)
Theorem pass_fail_standards_monotone (f f' p p' : Q) :
  f <= f' -> p' <= p ->
  (Standards.california_ja8_2019 f p = true -> Standards.california_ja8_2019 f' p' = true) /\
  (Standards.well_building_standard_v2 f p = true ->
   Standards.well_building_standard_v2 f' p' = true).
Proof.
  intros Hf Hp. unfold Standards.california_ja8_2019, Standards.well_building_standard_v2.
  split; intro H; qcases; try lra; try discriminate; reflexivity.
Qed.

Lemma pass_fail_standards_monotone_witness :
  (50 <= 100 /\ 4 <= 20) /\
  (Standards.california_ja8_2019 50 20 = true -> Standards.california_ja8_2019 100 4 = true) /\
  (Standards.well_building_standard_v2 50 20 = true ->
   Standards.well_building_standard_v2 100 4 = true).
Proof.
  split; [split; discriminate|].
  apply (pass_fail_standards_monotone 50 100 20 4); discriminate.
Defined.

Module SearchFacts.

Lemma skipn_cons_nth {A : Type} (d : list A) (i : nat) (x : A) (r : list A) (dflt : A) :
  skipn i d = x :: r -> nth i d dflt = x /\ skipn (S i) d = r /\ (i < List.length d)%nat.
Proof.
  revert d. induction i as [|i IH]; intros [|y d] H; simpl in *; try discriminate.
  - injection H as -> ->. split; [reflexivity | split; [reflexivity | lia]].
  - destruct (IH d H) as (A1 & A2 & A3). split; [exact A1 | split; [exact A2 | lia]].
Qed.

(** The loop of [argmin_from] keeps the first minimum of the prefix it has
    read. *)
Lemma argmin_from_spec (d : list Q) : forall l i bi b r,
  skipn i d = l -> (bi < i)%nat -> (i <= List.length d)%nat -> nth bi d 0 = b ->
  (forall j, (j < i)%nat -> b <= nth j d 0) ->
  (forall j, (j < bi)%nat -> b < nth j d 0) ->
  Waveform.argmin_from l i bi b = r ->
  (r < List.length d)%nat /\ (forall j, (j < List.length d)%nat -> nth r d 0 <= nth j d 0) /\
  (forall j, (j < r)%nat -> nth r d 0 < nth j d 0).
Proof.
  induction l as [|x l IH]; intros i bi b r Hs Hbi Hi Hb Hle Hlt Hr; simpl in Hr.
  - subst r. assert (Hlen : (List.length d <= i)%nat).
    { rewrite <- (firstn_skipn i d), Hs, app_nil_r, length_firstn in Hi |- *. lia. }
    split; [lia|]. split.
    + intros j Hj. rewrite Hb. apply Hle. lia.
    + intros j Hj. rewrite Hb. apply Hlt. exact Hj.
  - destruct (skipn_cons_nth d i x l 0 Hs) as (Hx & Hs' & Hid).
    destruct (Qlt_bool x b) eqn:E.
    + apply ConsensusFacts.Qlt_bool_true in E.
      apply (IH (S i) i x r); auto; try lia.
      * intros j Hj. destruct (Nat.eq_dec j i) as [->|Hne]; [rewrite Hx; apply Qle_refl|].
        apply Qlt_le_weak, Qlt_le_trans with b; [exact E | apply Hle; lia].
      * intros j Hj. apply Qlt_le_trans with b; [exact E | apply Hle; lia].
    + apply ConsensusFacts.Qlt_bool_false in E.
      apply (IH (S i) bi b r); auto; try lia.
      intros j Hj. destruct (Nat.eq_dec j i) as [->|Hne]; [rewrite Hx; exact E|].
      apply Hle. lia.
Qed.

Lemma find_nearest_idx_spec_aux (array : list Q) (value : Q) (i : nat) :
  Waveform.find_nearest_idx array value = Ok i ->
  (i < List.length array)%nat /\
  (forall j, (j < List.length array)%nat ->
             Qabs (nth i array 0 - value) <= Qabs (nth j array 0 - value)) /\
  (forall j, (j < i)%nat ->
             Qabs (nth i array 0 - value) < Qabs (nth j array 0 - value)).
Proof.
  unfold Waveform.find_nearest_idx, Waveform.argmin.
  set (f := fun a => Qabs (a - value)).
  destruct array as [|a r]; [discriminate|]. intro H. cbn [map] in H. injection H as H.
  set (d := map f (a :: r)).
  assert (Hl : List.length d = List.length (a :: r)) by apply length_map.
  assert (Hn : forall j, (j < List.length (a :: r))%nat ->
                         nth j d 0 = Qabs (nth j (a :: r) 0 - value)).
  { intros j Hj. unfold d. rewrite (nth_indep _ 0 (f 0)) by (rewrite length_map; exact Hj).
    apply map_nth. }
  destruct (argmin_from_spec d (map f r) 1 0 (f a) i) as (H1 & H2 & H3);
    try reflexivity; try lia; try exact H.
  - rewrite Hl. simpl. lia.
  - intros j Hj. assert (j = 0)%nat by lia. subst j. apply Qle_refl.
  - rewrite Hl in H1. split; [exact H1|]. split.
    + intros j Hj. rewrite <- (Hn i H1), <- (Hn j Hj). apply H2. rewrite Hl. exact Hj.
    + intros j Hj. rewrite <- (Hn i H1), <- (Hn j) by lia. apply H3. exact Hj.
Qed.

Lemma get_zero_ok {A : Type} (l : list A) (x : A) :
  Py.get l 0 = Ok x -> exists r, l = x :: r.
Proof.
  destruct l as [|y r]; [discriminate|].
  rewrite (PeriodFacts.get_in_range (y :: r) 0 y) by (simpl; lia).
  simpl. intro H. injection H as ->. eauto.
Qed.

Lemma slice_segment {A : Type} (l : list A) (a b : Z) :
  exists pre suf, l = pre ++ Py.slice l a b ++ suf.
Proof.
  unfold Py.slice. cbv zeta.
  match goal with
  | |- exists _ _, _ = _ ++ firstn ?k (skipn ?m _) ++ _ =>
      exists (firstn m l), (skipn k (skipn m l))
  end.
  rewrite firstn_skipn. symmetry. apply firstn_skipn.
Qed.

(** [n_periods] returns a non-empty block of consecutive rows of [data],
    with the times shifted so that the block starts at its first time. *)
Lemma n_periods_segment_aux (data : list (Q * Q)) (v_avg period : Q) (num : Z)
  (out : list (Q * Q)) :
  Waveform.n_periods data v_avg period num = Ok out ->
  exists pre seg suf, data = pre ++ seg ++ suf /\ seg <> [] /\
    out = map (fun r => (fst r - fst (hd (0%Q, 0%Q) seg), snd r)) seg.
Proof.
  unfold Waveform.n_periods. intro H.
  destruct (Py.get data 0) as [r0|]; [|discriminate H]; cbn [bind] in H.
  destruct (Py.get data 1) as [r1|]; [|discriminate H]; cbn [bind] in H.
  destruct (Waveform.int_of_div _ _) as [idx_1|]; [|discriminate H]; cbn [bind] in H.
  destruct (Py.get data idx_1) as [r_1|]; [|discriminate H]; cbn [bind] in H.
  destruct (Waveform.find_nearest_idx_rising _ _) as [idx|]; [|discriminate H];
    cbn [bind] in H.
  match type of H with context [Py.slice data ?a ?b] =>
    destruct (slice_segment data a b) as (pre & suf & Hd);
    destruct (Py.get (Py.slice data a b) 0) as [first|] eqn:Ef; [|discriminate H];
    destruct (get_zero_ok _ _ Ef) as [rest Hs];
    exists pre, (Py.slice data a b), suf
  end.
  cbn [bind] in H. injection H as <-.
  split; [exact Hd|]. rewrite Hs. split; [discriminate | reflexivity].
Qed.

End SearchFacts.

Module RoundFacts.
Import WaveformClass.


Lemma round_half_even_comp (p q : Q) : p == q -> round_half_even p = round_half_even q.
Proof.
  intro H. unfold round_half_even. rewrite (Qfloor_comp p q H).
  set (f := Qfloor q). qcases; try reflexivity; lra.
Qed.

End RoundFacts.

Module CrossingFacts.

Lemma zero_crossings_from_props (l : list Q) : forall i,
  Forall (le i) (Estimator.zero_crossings_from i l) /\
  Sorted lt (Estimator.zero_crossings_from i l).
Proof.
  induction l as [|a t IH]; intro i; [split; constructor|].
  destruct t as [|b t']; [split; constructor|].
  change (Estimator.zero_crossings_from i (a :: b :: t')) with
    (if (Estimator.sign a =? Estimator.sign b)%Z
     then Estimator.zero_crossings_from (S i) (b :: t')
     else i :: Estimator.zero_crossings_from (S i) (b :: t')).
  destruct (IH (S i)) as [HF HS].
  destruct (Estimator.sign a =? Estimator.sign b)%Z.
  - split; [|exact HS]. eapply Forall_impl; [|exact HF]. intros k Hk. lia.
  - split.
    + constructor; [lia|]. eapply Forall_impl; [|exact HF]. intros k Hk. lia.
    + constructor; [exact HS|].
      destruct (Estimator.zero_crossings_from (S i) (b :: t')) as [|k ks];
        constructor. inversion HF; lia.
Qed.

Lemma length_diffs (l : list nat) : List.length (Estimator.diffs l) = (List.length l - 1)%nat.
Proof.
  induction l as [|a t IH]; [reflexivity|].
  destruct t as [|b t']; [reflexivity|].
  change (Estimator.diffs (a :: b :: t')) with ((b - a)%nat :: Estimator.diffs (b :: t')).
  simpl in *. rewrite IH. lia.
Qed.

Lemma hd_le_last (l : list nat) : Sorted lt l -> (hd 0%nat l <= last l 0%nat)%nat.
Proof.
  induction l as [|a t IH]; intro H; [reflexivity|].
  destruct t as [|b t']; [reflexivity|].
  apply Sorted_inv in H as [H Hr]. apply HdRel_inv in Hr.
  specialize (IH H). simpl in IH |- *. destruct t'; lia.
Qed.

Lemma sum_diffs (l : list nat) : Sorted lt l ->
  Estimator.sum (map (fun d => inject_Z (Z.of_nat d)) (Estimator.diffs l))
  == inject_Z (Z.of_nat (last l 0%nat)) - inject_Z (Z.of_nat (hd 0%nat l)).
Proof.
  induction l as [|a t IH]; intro H; [reflexivity|].
  destruct t as [|b t']; [simpl; ring|].
  apply Sorted_inv in H as [H Hr]. apply HdRel_inv in Hr.
  change (Estimator.diffs (a :: b :: t')) with ((b - a)%nat :: Estimator.diffs (b :: t')).
  cbn [map Estimator.sum]. rewrite (IH H).
  change (last (a :: b :: t') 0%nat) with (last (b :: t') 0%nat). cbn [hd].
  rewrite Nat2Z.inj_sub by lia. unfold Z.sub. rewrite inject_Z_plus, inject_Z_opp. ring.
Qed.

Lemma hd_lt_last (l : list nat) :
  Sorted lt l -> (2 <= List.length l)%nat -> (hd 0%nat l < last l 0%nat)%nat.
Proof.
  intros H Hl. destruct l as [|a [|b t]]; simpl in Hl; try lia.
  apply Sorted_inv in H as [H Hr]. apply HdRel_inv in Hr.
  pose proof (hd_le_last (b :: t) H) as Hb. simpl in Hb |- *. destruct t; lia.
Qed.

End CrossingFacts.

(** ** Nearest-value search and period extraction *)

(** [find_nearest_idx(array, value)] raises [ValueError] exactly on an
    empty array; otherwise it returns an index of [array] whose value is
    nearest to [value], and the first such index. *)
Theorem find_nearest_idx_first_nearest (array : list Q) (value : Q) :
  match Waveform.find_nearest_idx array value with
  | Ok i =>
      (i < List.length array)%nat /\
      (forall j, (j < List.length array)%nat ->
                 Qabs (nth i array 0 - value) <= Qabs (nth j array 0 - value)) /\
      (forall j, (j < i)%nat ->
                 Qabs (nth i array 0 - value) < Qabs (nth j array 0 - value))
  | Raise e => array = [] /\ e = ValueError
  end.
Proof.
  destruct (Waveform.find_nearest_idx array value) as [i|e] eqn:E.
  - exact (SearchFacts.find_nearest_idx_spec_aux array value i E).
  - destruct array as [|a r]; [injection E as <-; split; reflexivity|discriminate E].
Qed.

(** When [n_periods] returns, its result is a non-empty block of
    consecutive rows of [data], unchanged except for the times, which are
    shifted so that the block starts at time [0]. *)
Theorem n_periods_is_shifted_block (data : list (Q * Q)) (v_avg period : Q) (num_periods : Z)
  (out : list (Q * Q)) :
  Waveform.n_periods data v_avg period num_periods = Ok out ->
  exists pre seg suf, data = pre ++ seg ++ suf /\ seg <> [] /\
    out = map (fun r => (fst r - fst (hd (0%Q, 0%Q) seg), snd r)) seg.
Proof. apply SearchFacts.n_periods_segment_aux. Qed.

Lemma n_periods_is_shifted_block_witness :
  Waveform.n_periods ramp6 (5#2) 3 2 = Ok [(0,2); (1,3); (2,4); (3,5)] /\
  exists pre seg suf, ramp6 = pre ++ seg ++ suf /\ seg <> [] /\
    [(0,2); (1,3); (2,4); (3,5)] = map (fun r => (fst r - fst (hd (0%Q, 0%Q) seg), snd r)) seg.
Proof.
  split; [reflexivity|].
  apply (n_periods_is_shifted_block ramp6 (5#2) 3 2). reflexivity.
Defined.

(** ** Frame rate and frequency *)


(** [frequency(data, framerate, v_avg)] depends only on the first and last
    crossings of [v_avg] and on their number [k]: with fewer than two
    crossings it raises [ValueError]; otherwise it is
    [round(framerate * (k - 1) / (2 * (last - first)))], reported as 120 Hz
    when that integer lies in [[115, 130]]. *)
Theorem frequency_from_first_and_last_crossing (data : list (Q * Q)) (framerate : Z)
  (v_avg : Q) :
  let zc := Estimator.zero_crossings (map (fun v => v - v_avg) (map snd data)) in
  ((List.length zc < 2)%nat -> WaveformClass.frequency data framerate v_avg = Raise ValueError) /\
  ((2 <= List.length zc)%nat ->
   WaveformClass.frequency data framerate v_avg =
   Ok (WaveformClass.snap_120 (WaveformClass.round_half_even
         (inject_Z framerate * inject_Z (Z.of_nat (List.length zc - 1))
          / (2 * inject_Z (Z.of_nat (last zc 0%nat - hd 0%nat zc))))))).
Proof.
  intro zc. unfold WaveformClass.frequency. cbv zeta. fold zc.
  pose proof (CrossingFacts.length_diffs zc) as HL.
  destruct (CrossingFacts.zero_crossings_from_props
              (map (fun v => v - v_avg) (map snd data)) 0) as [_ HS].
  fold zc in HS.
  split; intro Hlen.
  - assert (E : Estimator.diffs zc = [])
      by (destruct (Estimator.diffs zc); [reflexivity | simpl in HL; lia]).
    rewrite E. reflexivity.
  - destruct (map (fun d => inject_Z (Z.of_nat d)) (Estimator.diffs zc)) as [|x xs] eqn:EI.
    + apply (f_equal (@List.length Q)) in EI. rewrite length_map in EI. simpl in EI. lia.
    + f_equal. f_equal. apply RoundFacts.round_half_even_comp.
      rewrite <- EI. unfold Estimator.mean. rewrite length_map, HL.
      rewrite (CrossingFacts.sum_diffs zc HS).
      pose proof (CrossingFacts.hd_lt_last zc HS Hlen) as Hlt.
      assert (HK : 0 < inject_Z (Z.of_nat (List.length zc - 1)))
        by (change 0 with (inject_Z 0); rewrite <- Zlt_Qlt; lia).
      assert (HD : inject_Z (Z.of_nat (hd 0%nat zc)) < inject_Z (Z.of_nat (last zc 0%nat)))
        by (rewrite <- Zlt_Qlt; lia).
      rewrite (Nat2Z.inj_sub (last zc 0%nat) (hd 0%nat zc)) by lia.
      unfold Z.sub. rewrite inject_Z_plus, inject_Z_opp.
      revert HK HD.
      generalize (inject_Z (Z.of_nat (List.length zc - 1))) as K.
      generalize (inject_Z (Z.of_nat (hd 0%nat zc))) as H0.
      generalize (inject_Z (Z.of_nat (last zc 0%nat))) as L.
      intros L H0 K HK HD.
      field. split; intro Hz; lra.
Qed.

Module ExtrapolateFacts.
Import WaveformClass.

Lemma step_values (op out out' : list (Q * Q)) (fr : Z) :
  extrapolate_step op out fr = Ok out' -> map snd out' = map snd out ++ map snd op.
Proof.
  unfold extrapolate_step. destruct (Py.get out (-1)) as [r|]; [|discriminate]; cbn [bind].
  destruct (fr =? 0)%Z; [discriminate|]. cbn [bind]. intro H. injection H as <-.
  rewrite map_app, map_map. reflexivity.
Qed.

Lemma loop_values (op : list (Q * Q)) (fr : Z) (k : nat) : forall out res,
  extrapolate_loop k op out fr = Ok res ->
  map snd res = map snd out ++ concat (repeat (map snd op) k).
Proof.
  induction k as [|k IH]; intros out res H; simpl in H.
  - injection H as <-. simpl. rewrite app_nil_r. reflexivity.
  - destruct (extrapolate_step op out fr) as [out'|] eqn:E; [|discriminate]. cbn [bind] in H.
    rewrite (IH out' res H), (step_values op out out' fr E), <- app_assoc. reflexivity.
Qed.

Lemma get_last_ok {A : Type} (l : list A) : l <> [] -> exists r l', l = l' ++ [r] /\ Py.get l (-1) = Ok r.
Proof.
  intro Hne. destruct (exists_last Hne) as (l' & r & ->). exists r, l'. split; [reflexivity|].
  unfold Py.get. rewrite length_app. simpl.
  replace ((0 <=? -1) && (-1 <? Z.of_nat (List.length l' + 1)))%Z with false by reflexivity.
  replace ((- Z.of_nat (List.length l' + 1) <=? -1) && (-1 <? 0))%Z with true
    by (symmetry; apply andb_true_iff; split; [apply Z.leb_le | apply Z.ltb_lt]; lia).
  replace (Z.to_nat (Z.of_nat (List.length l' + 1) + -1)) with (List.length l') by lia.
  rewrite nth_error_app2 by lia. rewrite Nat.sub_diag. reflexivity.
Qed.

Lemma loop_ok (op : list (Q * Q)) (fr : Z) (k : nat) : forall out,
  out <> [] -> op <> [] -> fr <> 0%Z -> exists res, extrapolate_loop k op out fr = Ok res.
Proof.
  induction k as [|k IH]; intros out Hout Hop Hfr; simpl; [eauto|].
  unfold extrapolate_step. destruct (get_last_ok out Hout) as (r & l' & _ & ->). cbn [bind].
  destruct (Z.eqb_spec fr 0) as [E|_]; [contradiction|]. cbn [bind].
  apply IH; [|exact Hop|exact Hfr].
  intro E. apply app_eq_nil in E as [E _]. exact (Hout E).
Qed.

Lemma SS_app (l1 l2 : list Q) :
  StronglySorted Qlt l1 -> StronglySorted Qlt l2 ->
  (forall x y, In x l1 -> In y l2 -> x < y) -> StronglySorted Qlt (l1 ++ l2).
Proof.
  induction l1 as [|a l1 IH]; intros H1 H2 H; [exact H2|].
  apply StronglySorted_inv in H1 as [H1 Ha]. simpl. constructor.
  - apply IH; auto. intros x y Hx Hy. apply H; simpl; auto.
  - apply Forall_app. split; [exact Ha|]. apply Forall_forall. intros y Hy. apply H; simpl; auto.
Qed.

Lemma SS_last (l : list Q) (a x : Q) : StronglySorted Qlt (l ++ [a]) -> In x l -> x < a.
Proof.
  induction l as [|b l IH]; intros H Hx; [destruct Hx|].
  apply StronglySorted_inv in H as [H Hb]. destruct Hx as [<-|Hx].
  - rewrite Forall_forall in Hb. apply Hb. apply in_or_app. right. left. reflexivity.
  - exact (IH H Hx).
Qed.

Lemma SS_shift (l : list Q) (c : Q) :
  StronglySorted Qlt l -> StronglySorted Qlt (map (fun t => t + c) l).
Proof.
  induction l as [|a l IH]; intro H; simpl; [constructor|].
  apply StronglySorted_inv in H as [H Ha]. constructor; [exact (IH H)|].
  apply Forall_map. eapply Forall_impl; [|exact Ha]. intros t Ht. simpl. lra.
Qed.

Lemma loop_sorted (op : list (Q * Q)) (fr : Z) (k : nat) : forall out res,
  StronglySorted Qlt (map fst op) -> Forall (fun r => 0 <= fst r) op -> (0 < fr)%Z ->
  out <> [] -> StronglySorted Qlt (map fst out) ->
  extrapolate_loop k op out fr = Ok res -> StronglySorted Qlt (map fst res).
Proof.
  induction k as [|k IH]; intros out res Hop H0 Hfr Hout Hs H; simpl in H.
  - injection H as <-. exact Hs.
  - unfold extrapolate_step in H. destruct (get_last_ok out Hout) as (r & l' & El & Eg).
    rewrite Eg in H. cbn [bind] in H.
    destruct (Z.eqb_spec fr 0) as [E|_]; [lia|]. cbn [bind] in H.
    apply (IH (out ++ map (fun r0 => (fst r0 + (fst r + 1 / inject_Z fr), snd r0)) op) res Hop H0 Hfr); [| |exact H].
    + intro E. apply app_eq_nil in E as [E _]. exact (Hout E).
    + assert (Hfr' : 0 < 1 / inject_Z fr).
      { apply Qlt_shift_div_l; [change 0 with (inject_Z 0); rewrite <- Zlt_Qlt; exact Hfr|].
        lra. }
      rewrite map_app, map_map. cbn [fst].
      replace (map (fun x => fst x + (fst r + 1 / inject_Z fr)) op)
        with (map (fun t => t + (fst r + 1 / inject_Z fr)) (map fst op))
        by (rewrite map_map; reflexivity).
      apply SS_app; [exact Hs | apply SS_shift, Hop|].
      intros x y Hx Hy. apply in_map_iff in Hy as (t & <- & Ht).
      apply in_map_iff in Ht as (q & <- & Hq).
      rewrite Forall_forall in H0. specialize (H0 q Hq).
      assert (Hxr : x <= fst r).
      { rewrite El, map_app in Hx, Hs. simpl in Hx, Hs.
        apply in_app_or in Hx as [Hx|[<-|[]]]; [|apply Qle_refl].
        apply Qlt_le_weak. exact (SS_last _ _ _ Hs Hx). }
      lra.
Qed.

End ExtrapolateFacts.

(** ** Extrapolation *)

(** The values that [extrapolate] returns are the values of [one_period]
    repeated [max(1, num_periods)] times, where [num_periods] is the count
    it returns. *)
Theorem extrapolate_repeats_values (one_period : list (Q * Q)) (v_pp : Q) (framerate : Z)
  (time_ms : option Z) (out : list (Q * Q)) (num_periods : Z) :
  WaveformClass.extrapolate one_period v_pp framerate time_ms = Ok (out, num_periods) ->
  map snd out = concat (repeat (map snd one_period) (Z.to_nat (Z.max 1 num_periods))).
Proof.
  unfold WaveformClass.extrapolate.
  destruct (match time_ms with
            | None => n <- Waveform.int_of_div 1 v_pp ;; Ok (n + 1)%Z
            | Some t => Ok (Py.trunc (inject_Z framerate / 1000 * inject_Z t))
            end) as [n|]; [|discriminate]. cbn [bind].
  destruct (WaveformClass.extrapolate_loop _ _ _ _) as [res|] eqn:E; [|discriminate].
  cbn [bind]. intro H. injection H as <- <-.
  rewrite (ExtrapolateFacts.loop_values _ _ _ _ _ E).
  replace (Z.to_nat (Z.max 1 n)) with (S (Z.to_nat (n - 1))) by lia. reflexivity.
Qed.

Lemma extrapolate_repeats_values_witness :
  WaveformClass.extrapolate [(0,1); (1,2)] (1#3) 1 None =
    Ok ([(0,1); (1,2); (2,1); (3,2); (4,1); (5,2); (6,1); (7,2)], 4%Z) /\
  map snd [(0,1); (1,2); (2,1); (3,2); (4,1); (5,2); (6,1); (7,2)] =
    concat (repeat (map snd [(0,1); (1,2)]) (Z.to_nat (Z.max 1 4))).
Proof.
  split; [reflexivity|].
  apply (extrapolate_repeats_values [(0,1); (1,2)] (1#3) 1 None). reflexivity.
Defined.

(** [extrapolate] does not raise when [one_period] is non-empty and the
    frame rate is non-zero, provided [time_ms] is given or [v_pp] is
    non-zero. *)
Theorem extrapolate_succeeds (one_period : list (Q * Q)) (v_pp : Q) (framerate : Z)
  (time_ms : option Z) :
  one_period <> [] -> framerate <> 0%Z -> (time_ms <> None \/ ~ v_pp == 0) ->
  exists out num_periods,
    WaveformClass.extrapolate one_period v_pp framerate time_ms = Ok (out, num_periods).
Proof.
  intros Hop Hfr Ht. unfold WaveformClass.extrapolate.
  assert (Hn : exists n, (match time_ms with
            | None => n <- Waveform.int_of_div 1 v_pp ;; Ok (n + 1)%Z
            | Some t => Ok (Py.trunc (inject_Z framerate / 1000 * inject_Z t))
            end) = Ok n).
  { destruct time_ms as [t|]; [eauto|].
    destruct Ht as [Ht|Ht]; [contradiction|].
    unfold Waveform.int_of_div. destruct (Qeq_bool v_pp 0) eqn:E.
    - apply Qeq_bool_iff in E. contradiction.
    - cbn [bind]. eauto. }
  destruct Hn as [n ->]. cbn [bind].
  destruct (ExtrapolateFacts.loop_ok one_period framerate (Z.to_nat (n - 1)) one_period
              Hop Hop Hfr) as [res ->].
  cbn [bind]. eauto.
Qed.

Lemma extrapolate_succeeds_witness :
  ([(0,1); (1,2)] <> [] /\ 1%Z <> 0%Z /\ (None <> @None Z \/ ~ (1#3) == 0)) /\
  exists out num_periods,
    WaveformClass.extrapolate [(0,1); (1,2)] (1#3) 1 None = Ok (out, num_periods).
Proof.
  split; [split; [discriminate | split; [discriminate | right; discriminate]]|].
  apply (extrapolate_succeeds [(0,1); (1,2)] (1#3) 1 None);
    [discriminate | discriminate | right; discriminate].
Defined.

(** With a positive frame rate and a period whose times are non-negative
    and strictly increasing (as [n_periods] returns them), the times of the
    extrapolated waveform are strictly increasing: each copy starts
    [1 / framerate] after the previous one ends. *)
Theorem extrapolate_times_increasing (one_period : list (Q * Q)) (v_pp : Q) (framerate : Z)
  (time_ms : option Z) (out : list (Q * Q)) (num_periods : Z) :
  Sorted Qlt (map fst one_period) -> Forall (fun r => 0 <= fst r) one_period ->
  (0 < framerate)%Z ->
  WaveformClass.extrapolate one_period v_pp framerate time_ms = Ok (out, num_periods) ->
  Sorted Qlt (map fst out).
Proof.
  intros Hs H0 Hfr. unfold WaveformClass.extrapolate.
  destruct (match time_ms with
            | None => n <- Waveform.int_of_div 1 v_pp ;; Ok (n + 1)%Z
            | Some t => Ok (Py.trunc (inject_Z framerate / 1000 * inject_Z t))
            end) as [n|]; [|discriminate]. cbn [bind].
  destruct (WaveformClass.extrapolate_loop _ _ _ _) as [res|] eqn:E; [|discriminate].
  cbn [bind]. intro H. injection H as <- <-.
  assert (HSS : StronglySorted Qlt (map fst one_period))
    by (apply Sorted_StronglySorted; [exact Qlt_trans | exact Hs]).
  destruct one_period as [|r op'].
  - destruct (Z.to_nat (n - 1)) eqn:Ek; simpl in E.
    + injection E as <-. constructor.
    + discriminate E.
  - assert (Hne : r :: op' <> []) by discriminate.
    apply StronglySorted_Sorted.
    exact (ExtrapolateFacts.loop_sorted _ _ _ _ _ HSS H0 Hfr Hne HSS E).
Qed.

Lemma extrapolate_times_increasing_witness :
  (Sorted Qlt (map fst [(0,1); (1,2)]) /\ Forall (fun r => 0 <= fst r) [(0,1); (1,2)] /\
   (0 < 1)%Z /\
   WaveformClass.extrapolate [(0,1); (1,2)] (1#3) 1 None =
     Ok ([(0,1); (1,2); (2,1); (3,2); (4,1); (5,2); (6,1); (7,2)], 4%Z)) /\
  Sorted Qlt (map fst [(0,1); (1,2); (2,1); (3,2); (4,1); (5,2); (6,1); (7,2)]).
Proof.
  assert (Hs : Sorted Qlt (map fst [(0,1); (1,2)]))
    by (repeat constructor; reflexivity).
  assert (H0 : Forall (fun r => 0 <= fst r) [(0,1); (1,2)])
    by (repeat constructor; discriminate).
  split; [split; [exact Hs | split; [exact H0 | split; reflexivity]]|].
  apply (extrapolate_times_increasing [(0,1); (1,2)] (1#3) 1 None _ 4 Hs H0); reflexivity.
Defined.


Module FlickerFacts.

(** The flicker index of samples within [[v_min, v_max]], [v_min >= 0],
    taken about the midrange, lies in [[0, 1]] when it is finite. *)
Lemma flicker_index_in_unit (one_period : list (Q * Q)) (v_min v_max r : Q) :
  0 <= v_min ->
  Forall (fun v => v_min <= v <= v_max) (map snd one_period) ->
  Waveform.flicker_index one_period ((v_max + v_min) / 2) = Some r ->
  0 <= r <= 1.
Proof.
  intros H0 Hall Hfi. unfold Waveform.flicker_index in Hfi. cbv zeta in Hfi.
  rewrite map_map in Hfi.
  set (avg := (v_max + v_min) / 2) in *.
  set (vs := map snd one_period) in *.
  set (ct := map (fun x => (if Qlt_bool avg x then x else avg) - avg) vs) in Hfi.
  destruct (Qeq_bool (Simpson.simpson vs) 0) eqn:E; [discriminate|].
  injection Hfi as <-.
  assert (Hpt : forall v, v_min <= v <= v_max ->
            0 <= (if Qlt_bool avg v then v else avg) - avg /\
            (if Qlt_bool avg v then v else avg) - avg <= v).
  { intros v [Hlo Hhi].
    assert (Havg : 0 <= avg)
      by (unfold avg, Qdiv; change (/ 2) with (1#2); lra).
    destruct (Qlt_bool avg v) eqn:Ev.
    - apply ConsensusFacts.Qlt_bool_true in Ev. split; lra.
    - split; lra. }
  assert (Hct0 : Forall (Qle 0) ct).
  { unfold ct. apply Forall_forall. intros c Hc.
    apply in_map_iff in Hc as [v [<- Hv]].
    rewrite Forall_forall in Hall. now apply Hpt, Hall. }
  assert (Hle : Forall2 Qle ct vs).
  { unfold ct. clear - Hall Hpt. clearbody vs. induction Hall as [|v l Hv _ IH]; simpl; constructor.
    - now apply Hpt.
    - exact IH. }
  pose proof (SimpsonFacts.simpson_nonneg _ Hct0) as Htop.
  pose proof (SimpsonFacts.simpson_mono _ _ Hle) as Hmono.
  assert (Hpos : 0 < Simpson.simpson vs).
  { apply Qle_lteq in Hmono as [Hlt|Heq].
    - apply Qle_lt_trans with (Simpson.simpson ct); assumption.
    - apply Qle_lteq in Htop as [Hlt|Heq0]; [rewrite <- Heq; exact Hlt|].
      exfalso. assert (Hz : Simpson.simpson vs == 0) by (rewrite <- Heq, Heq0; reflexivity).
      apply Qeq_bool_iff in Hz. congruence. }
  split.
  - apply Qle_shift_div_l; [exact Hpos|]. rewrite Qmult_0_l. exact Htop.
  - apply Qle_shift_div_r; [exact Hpos|]. rewrite Qmult_1_l. exact Hmono.
Qed.

End FlickerFacts.

Module StatsFacts.
Import WaveformClass.

Lemma np_fold_max_spec (r : list Q) : forall x,
  Forall (fun v => v <= fold_left Qmax r x) (x :: r) /\ In (fold_left Qmax r x) (x :: r).
Proof.
  induction r as [|y r IH]; intro x; simpl.
  - split; [constructor; [apply Qle_refl | constructor] | left; reflexivity].
  - destruct (IH (Qmax x y)) as [HF HI]. inversion HF as [|? ? Hm HF']; subst.
    split.
    + constructor; [eapply Qle_trans; [apply Q.le_max_l | exact Hm]|].
      constructor; [eapply Qle_trans; [apply Q.le_max_r | exact Hm] | exact HF'].
    + destruct HI as [HI|HI]; [|right; right; exact HI].
      assert (Hxy : Qmax x y = x \/ Qmax x y = y)
        by (unfold Qmax, GenericMinMax.gmax; destruct (x ?= y); auto).
      rewrite <- HI. destruct Hxy as [Hxy|Hxy]; rewrite Hxy; simpl; auto.
Qed.

Lemma np_fold_min_spec (r : list Q) : forall x,
  Forall (fun v => fold_left Qmin r x <= v) (x :: r) /\ In (fold_left Qmin r x) (x :: r).
Proof.
  induction r as [|y r IH]; intro x; simpl.
  - split; [constructor; [apply Qle_refl | constructor] | left; reflexivity].
  - destruct (IH (Qmin x y)) as [HF HI]. inversion HF as [|? ? Hm HF']; subst.
    split.
    + constructor; [eapply Qle_trans; [exact Hm | apply Q.le_min_l]|].
      constructor; [eapply Qle_trans; [exact Hm | apply Q.le_min_r] | exact HF'].
    + destruct HI as [HI|HI]; [|right; right; exact HI].
      assert (Hxy : Qmin x y = x \/ Qmin x y = y)
        by (unfold Qmin, GenericMinMax.gmin; destruct (x ?= y); auto).
      rewrite <- HI. destruct Hxy as [Hxy|Hxy]; rewrite Hxy; simpl; auto.
Qed.

Lemma np_max_spec (l : list Q) (m : Q) :
  np_max l = Ok m -> Forall (fun v => v <= m) l /\ In m l.
Proof.
  destruct l as [|x r]; [discriminate|]. intro H. injection H as <-. apply np_fold_max_spec.
Qed.

Lemma np_min_spec (l : list Q) (m : Q) :
  np_min l = Ok m -> Forall (fun v => m <= v) l /\ In m l.
Proof.
  destruct l as [|x r]; [discriminate|]. intro H. injection H as <-. apply np_fold_min_spec.
Qed.

(** What a successful constructor has computed, in one statement. *)
Lemma waveform_init_inv (savgol_filter : list Q -> nat -> nat -> result (list Q))
  (rows : list (Q * Q)) (remove_noise : bool) (w : waveform) :
  waveform_init savgol_filter rows remove_noise = Ok w ->
  np_max (map snd (wf_data w)) = Ok (wf_v_max w) /\
  np_min (map snd (wf_data w)) = Ok (wf_v_min w) /\
  wf_v_pp w = wf_v_max w - wf_v_min w /\
  wf_v_avg w = (wf_v_max w + wf_v_min w) / 2 /\
  ~ wf_frequency w == 0 /\ wf_period w = 1 / wf_frequency w /\
  Waveform.n_periods (wf_data w) (wf_v_avg w) (wf_period w) 1 = Ok (wf_one_period w) /\
  wf_flicker_index w = Waveform.flicker_index (wf_one_period w) (wf_v_avg w) /\
  wf_percent_flicker w = Metrics.percent_flicker (wf_v_max w) (wf_v_pp w).
Proof.
  unfold waveform_init. intro H.
  destruct (import_rows rows) as [d0|]; [|discriminate H]; cbn [bind] in H.
  destruct (if remove_noise then denoise savgol_filter d0 else Ok d0) as [data|];
    [|discriminate H]; cbn [bind] in H.
  destruct (framerate data) as [fr|]; [|discriminate H]; cbn [bind] in H.
  destruct (np_max (map snd data)) as [vM|] eqn:EM; [|discriminate H]; cbn [bind] in H.
  destruct (np_min (map snd data)) as [vm|] eqn:Em; [|discriminate H]; cbn [bind] in H.
  destruct (frequency data fr ((vM + vm) / 2)) as [freq|]; [|discriminate H]; cbn [bind] in H.
  destruct (Qeq_bool freq 0) eqn:Ef; [discriminate H|]; cbn [bind] in H.
  destruct (Waveform.n_periods data ((vM + vm) / 2) (1 / freq) 1) as [op|] eqn:En;
    [|discriminate H]; cbn [bind] in H.
  injection H as <-. cbn.
  repeat split; try assumption; try reflexivity.
  exact (CompareFacts.Qeq_bool_false _ _ Ef).
Qed.

Lemma Forall_segment {A : Type} (P : A -> Prop) (pre seg suf : list A) :
  Forall P (pre ++ seg ++ suf) -> Forall P seg.
Proof.
  intro H. apply Forall_app in H as [_ H]. apply Forall_app in H as [H _]. exact H.
Qed.

End StatsFacts.

(** ** The [Waveform] constructor *)

(** After a successful [Waveform.__init__], every sample lies within
    [[v_min, v_max]], [v_avg] lies between them and [v_pp >= 0]; the stored
    period is [1 / frequency] with a non-zero frequency, and [one_period] is
    a block of consecutive samples of the data, time-shifted to start at
    [0]. *)
Theorem waveform_init_consistent (savgol_filter : list Q -> nat -> nat -> result (list Q))
  (rows : list (Q * Q)) (remove_noise : bool) (w : WaveformClass.waveform) :
  WaveformClass.waveform_init savgol_filter rows remove_noise = Ok w ->
  Forall (fun v => WaveformClass.wf_v_min w <= v <= WaveformClass.wf_v_max w)
    (map snd (WaveformClass.wf_data w)) /\
  WaveformClass.wf_v_min w <= WaveformClass.wf_v_avg w <= WaveformClass.wf_v_max w /\
  0 <= WaveformClass.wf_v_pp w /\
  ~ WaveformClass.wf_frequency w == 0 /\
  WaveformClass.wf_period w * WaveformClass.wf_frequency w == 1 /\
  exists pre seg suf, WaveformClass.wf_data w = pre ++ seg ++ suf /\ seg <> [] /\
    WaveformClass.wf_one_period w =
      map (fun r => (fst r - fst (hd (0%Q, 0%Q) seg), snd r)) seg.
Proof.
  intro H.
  destruct (StatsFacts.waveform_init_inv _ _ _ _ H)
    as (HM & Hm & Hpp & Havg & Hf & Hper & Hn & _ & _).
  destruct (StatsFacts.np_max_spec _ _ HM) as [HM1 HM2].
  destruct (StatsFacts.np_min_spec _ _ Hm) as [Hm1 _].
  assert (Hle : WaveformClass.wf_v_min w <= WaveformClass.wf_v_max w).
  { rewrite Forall_forall in Hm1. apply Hm1. exact HM2. }
  split.
  - rewrite Forall_forall in HM1, Hm1 |- *. intros v Hv. split; auto.
  - rewrite Havg, Hpp. split; [unfold Qdiv; change (/ 2) with (1#2); split; lra|].
    split; [lra|]. split; [exact Hf|]. split.
    + rewrite Hper. field. exact Hf.
    + exact (SearchFacts.n_periods_segment_aux _ _ _ _ _ Hn).
Qed.

(** For a non-negative waveform (light output), a successful
    [Waveform.__init__] gives a percent flicker in [[0, 100]] when
    [v_max > 0], and a flicker index in [[0, 1]] whenever it is finite. *)
Theorem waveform_metrics_in_range (savgol_filter : list Q -> nat -> nat -> result (list Q))
  (rows : list (Q * Q)) (remove_noise : bool) (w : WaveformClass.waveform) :
  WaveformClass.waveform_init savgol_filter rows remove_noise = Ok w ->
  Forall (Qle 0) (map snd (WaveformClass.wf_data w)) ->
  (0 < WaveformClass.wf_v_max w -> 0 <= WaveformClass.wf_percent_flicker w <= 100) /\
  (forall r, WaveformClass.wf_flicker_index w = Some r -> 0 <= r <= 1).
Proof.
  intros H Hnn.
  destruct (StatsFacts.waveform_init_inv _ _ _ _ H)
    as (HM & Hm & Hpp & Havg & _ & _ & Hn & Hfi & Hpf).
  destruct (StatsFacts.np_max_spec _ _ HM) as [HM1 HM2].
  destruct (StatsFacts.np_min_spec _ _ Hm) as [Hm1 Hm2].
  assert (Hmin0 : 0 <= WaveformClass.wf_v_min w)
    by (rewrite Forall_forall in Hnn; apply Hnn; exact Hm2).
  assert (Hle : WaveformClass.wf_v_min w <= WaveformClass.wf_v_max w)
    by (rewrite Forall_forall in Hm1; apply Hm1; exact HM2).
  split.
  - intro Hpos. rewrite Hpf, Hpp. unfold Metrics.percent_flicker.
    split.
    + apply Qmult_le_0_compat; [|discriminate].
      apply Qle_shift_div_l; [exact Hpos|]. lra.
    + apply Qle_trans with (1 * 100); [|apply Qle_refl].
      apply Qmult_le_r; [reflexivity|].
      apply Qle_shift_div_r; [exact Hpos|]. lra.
  - intros r Hr. rewrite Hfi, Havg in Hr.
    destruct (SearchFacts.n_periods_segment_aux _ _ _ _ _ Hn) as (pre & seg & suf & Hd & _ & Ho).
    apply (FlickerFacts.flicker_index_in_unit (WaveformClass.wf_one_period w)
             (WaveformClass.wf_v_min w) (WaveformClass.wf_v_max w) r Hmin0); [|exact Hr].
    rewrite Ho, map_map. cbn [snd].
    change (map (fun x => snd x) seg) with (map snd seg).
    apply (StatsFacts.Forall_segment _ (map snd pre) _ (map snd suf)).
    rewrite <- !map_app, <- Hd.
    rewrite Forall_forall in HM1, Hm1 |- *. intros v Hv. split; auto.
Qed.

Lemma waveform_init_consistent_witness :
  exists w, WaveformClass.waveform_init Inputs.savgol_raise Inputs.tri32 false = Ok w /\
  Forall (fun v => WaveformClass.wf_v_min w <= v <= WaveformClass.wf_v_max w)
    (map snd (WaveformClass.wf_data w)) /\
  WaveformClass.wf_v_min w <= WaveformClass.wf_v_avg w <= WaveformClass.wf_v_max w /\
  0 <= WaveformClass.wf_v_pp w /\
  ~ WaveformClass.wf_frequency w == 0 /\
  WaveformClass.wf_period w * WaveformClass.wf_frequency w == 1 /\
  exists pre seg suf, WaveformClass.wf_data w = pre ++ seg ++ suf /\ seg <> [] /\
    WaveformClass.wf_one_period w =
      map (fun r => (fst r - fst (hd (0%Q, 0%Q) seg), snd r)) seg.
Proof.
  destruct (WaveformClass.waveform_init Inputs.savgol_raise Inputs.tri32 false)
    as [w|e] eqn:E; [|vm_compute in E; discriminate].
  exists w. split; [reflexivity|].
  apply (waveform_init_consistent Inputs.savgol_raise Inputs.tri32 false w). exact E.
Defined.

Lemma waveform_metrics_in_range_witness :
  exists w, WaveformClass.waveform_init Inputs.savgol_raise Inputs.tri32 false = Ok w /\
  Forall (Qle 0) (map snd (WaveformClass.wf_data w)) /\
  (0 < WaveformClass.wf_v_max w -> 0 <= WaveformClass.wf_percent_flicker w <= 100) /\
  (forall r, WaveformClass.wf_flicker_index w = Some r -> 0 <= r <= 1).
Proof.
  destruct (WaveformClass.waveform_init Inputs.savgol_raise Inputs.tri32 false)
    as [w|e] eqn:E; [|vm_compute in E; discriminate].
  assert (Hnn : Forall (Qle 0) (map snd (WaveformClass.wf_data w))).
  { vm_compute in E. injection E as <-. vm_compute.
    repeat constructor; discriminate. }
  exists w. split; [reflexivity|]. split; [exact Hnn|].
  apply (waveform_metrics_in_range Inputs.savgol_raise Inputs.tri32 false w); assumption.
Defined.

(** ** Directory listing and the waveform collection *)

Module ListingFacts.

Lemma chars_app (a b : string) :
  WaveformClass.chars (a ++ b) = WaveformClass.chars a ++ WaveformClass.chars b.
Proof.
  induction a as [|c a IH]; simpl; [reflexivity|].
  unfold WaveformClass.chars in *. simpl. rewrite IH. reflexivity.
Qed.

Lemma string_app_assoc (a b c : string) : ((a ++ b) ++ c)%string = (a ++ b ++ c)%string.
Proof. induction a as [|x a IH]; simpl; [reflexivity|]. rewrite IH. reflexivity. Qed.

Lemma get_last_string (d : string) (c : ascii) :
  Py.get (WaveformClass.chars d) (-1) = Ok c -> Listing.ends_with_slash d = Ascii.eqb c "/"%char.
Proof.
  intro H. unfold Listing.ends_with_slash.
  destruct (WaveformClass.chars d) as [|x l] eqn:E; [discriminate|].
  assert (Hne : x :: l <> []) by discriminate.
  destruct (ExtrapolateFacts.get_last_ok (x :: l) Hne) as (r & l' & Hl & Hg).
  rewrite H in Hg. injection Hg as <-. rewrite Hl, rev_app_distr. reflexivity.
Qed.

Lemma get_last_empty : Py.get (WaveformClass.chars EmptyString) (-1) = @Raise ascii IndexError.
Proof. reflexivity. Qed.

Lemma get_last_nonempty (d : string) :
  d <> EmptyString -> exists c, Py.get (WaveformClass.chars d) (-1) = Ok c.
Proof.
  intro Hd. destruct d as [|x r]; [congruence|].
  assert (Hne : WaveformClass.chars (String x r) <> []) by discriminate.
  destruct (ExtrapolateFacts.get_last_ok _ Hne) as (c & l' & _ & Hg). eauto.
Qed.

Lemma get_first_string (f : string) :
  Py.get (WaveformClass.chars f) 0 =
  match f with String c _ => Ok c | EmptyString => Raise IndexError end.
Proof. destruct f; reflexivity. Qed.

Lemma ends_with_slash_app (d : string) :
  Listing.ends_with_slash (d ++ "/") = true.
Proof.
  unfold Listing.ends_with_slash. rewrite chars_app, rev_app_distr. reflexivity.
Qed.

(** The directory path after the update of one iteration. *)
Lemma dirpath_update (d : string) (c : ascii) :
  Py.get (WaveformClass.chars d) (-1) = Ok c ->
  let d' := if negb (Ascii.eqb c "/"%char) then (d ++ "/")%string else d in
  d' <> EmptyString /\ (forall f, Listing.join_path d' f = Listing.join_path d f) /\
  Listing.ends_with_slash d' = true.
Proof.
  intros H. pose proof (get_last_string d c H) as Hs. cbv zeta.
  destruct (Ascii.eqb c "/"%char) eqn:Ec; simpl.
  - split; [intros ->; discriminate|]. split; [reflexivity|]. rewrite Hs. reflexivity.
  - split; [destruct d; discriminate|]. split; [|apply ends_with_slash_app].
    intro f. unfold Listing.join_path at 1. rewrite ends_with_slash_app.
    unfold Listing.join_path. rewrite Hs. apply string_app_assoc.
Qed.

Lemma files_loop_spec (fs : list string) : forall d ns ps,
  match WaveformClass.files_loop d fs ns ps with
  | Ok (ns', ps') =>
      ns' = ns ++ map WaveformClass.format_name (filter Listing.visible fs) /\
      ps' = ps ++ map (Listing.join_path d) (filter Listing.visible fs)
  | Raise e => e = IndexError
  end.
Proof.
  induction fs as [|f fs IH]; intros d ns ps; simpl.
  - rewrite !app_nil_r. auto.
  - destruct (Py.get (WaveformClass.chars d) (-1)) as [c|e] eqn:Ed; simpl;
      [|destruct d; [injection Ed as <-; reflexivity|]].
    + destruct (dirpath_update d c Ed) as (_ & Hj & _).
      set (d' := if negb (Ascii.eqb c "/"%char) then (d ++ "/")%string else d) in *.
      rewrite get_first_string. destruct f as [|x r]; simpl; [reflexivity|].
      destruct (Ascii.eqb x "."%char) eqn:Ex; simpl.
      * specialize (IH d' ns ps).
        destruct (WaveformClass.files_loop d' fs ns ps) as [[ns' ps']|e]; [|exact IH].
        destruct IH as [-> ->]. split; [reflexivity|].
        f_equal. apply map_ext. exact Hj.
      * specialize (IH d' (ns ++ [WaveformClass.format_name (String x r)])
                        (ps ++ [(d' ++ String x r)%string])).
        destruct (WaveformClass.files_loop d' fs _ _) as [[ns' ps']|e]; [|exact IH].
        destruct IH as [-> ->]. rewrite <- !app_assoc. simpl. split; [reflexivity|].
        f_equal. f_equal; [|apply map_ext; exact Hj].
        rewrite <- (Hj (String x r)). unfold Listing.join_path.
        destruct (dirpath_update d c Ed) as (_ & _ & Hs). fold d' in Hs.
        rewrite Hs. reflexivity.
    + exfalso. destruct (get_last_nonempty (String a d) ltac:(discriminate)) as [c Hc].
      congruence.
Qed.

Lemma walk_loop_spec (walk : list (string * list string * list string)) : forall ns ps,
  match WaveformClass.walk_loop walk ns ps with
  | Ok (ns', ps') =>
      ns' = ns ++ flat_map (fun e => map WaveformClass.format_name
                                       (filter Listing.visible (snd e))) walk /\
      ps' = ps ++ flat_map (fun e => map (Listing.join_path (fst (fst e)))
                                       (filter Listing.visible (snd e))) walk
  | Raise e => e = IndexError
  end.
Proof.
  induction walk as [|[[d dn] fs] walk IH]; intros ns ps; simpl.
  - rewrite !app_nil_r. auto.
  - pose proof (files_loop_spec fs d ns ps) as Hf.
    destruct (WaveformClass.files_loop d fs ns ps) as [[ns1 ps1]|e]; simpl; [|exact Hf].
    destruct Hf as [-> ->]. specialize (IH (ns ++ map WaveformClass.format_name
      (filter Listing.visible fs)) (ps ++ map (Listing.join_path d) (filter Listing.visible fs))).
    destruct (WaveformClass.walk_loop walk _ _) as [[ns' ps']|e]; [|exact IH].
    destruct IH as [-> ->]. rewrite <- !app_assoc. auto.
Qed.

Definition listing_ok (walk : list (string * list string * list string)) : Prop :=
  Forall (fun e => snd e <> [] ->
    fst (fst e) <> EmptyString /\ Forall (fun f => f <> EmptyString) (snd e)) walk.

Lemma files_loop_ok_iff (fs : list string) : forall d ns ps,
  (exists r, WaveformClass.files_loop d fs ns ps = Ok r) <->
  (fs <> [] -> d <> EmptyString /\ Forall (fun f => f <> EmptyString) fs).
Proof.
  induction fs as [|f fs IH]; intros d ns ps; simpl.
  - split; [intros _ H; congruence | intros _; eauto].
  - destruct (Py.get (WaveformClass.chars d) (-1)) as [c|e] eqn:Ed; simpl.
    + destruct (dirpath_update d c Ed) as (Hd' & _ & _).
      set (d' := if negb (Ascii.eqb c "/"%char) then (d ++ "/")%string else d) in *.
      assert (Hd : d <> EmptyString) by (intros ->; discriminate).
      rewrite get_first_string. destruct f as [|x r]; simpl.
      * split; [intros [? H]; discriminate|]. intro H.
        destruct (H ltac:(discriminate)) as [_ Hf]. inversion Hf. congruence.
      * assert (Hstep : forall ns ps, (exists r0, WaveformClass.files_loop d' fs ns ps = Ok r0) <->
          (fs <> [] -> Forall (fun f => f <> EmptyString) fs)).
        { intros ns0 ps0. rewrite IH. split; intros H Hne; [apply H|split]; auto. }
        destruct (Ascii.eqb x "."%char); simpl; rewrite Hstep;
          (split; [intros H _; split; [exact Hd|constructor; [discriminate|]];
                   destruct fs; [constructor|apply H; discriminate]
                  |intros H Hne; destruct (H ltac:(discriminate)) as [_ Hf];
                   inversion Hf; assumption]).
    + split; [intros [? H]; discriminate|]. intro H.
      destruct (H ltac:(discriminate)) as [Hd _].
      destruct (get_last_nonempty d Hd) as [c' Hc]. congruence.
Qed.

Lemma walk_loop_ok_iff (walk : list (string * list string * list string)) : forall ns ps,
  (exists r, WaveformClass.walk_loop walk ns ps = Ok r) <-> listing_ok walk.
Proof.
  unfold listing_ok.
  induction walk as [|[[d dn] fs] walk IH]; intros ns ps; simpl.
  - split; eauto.
  - rewrite Forall_cons_iff. simpl. rewrite <- (files_loop_ok_iff fs d ns ps).
    destruct (WaveformClass.files_loop d fs ns ps) as [[ns1 ps1]|e]; simpl.
    + rewrite <- (IH ns1 ps1). split; [intro H; split; eauto|intros [_ H]; exact H].
    + split; [intros [? H]; discriminate|intros [[? H] _]; discriminate].
Qed.

Lemma before_dot_clean (f : string) : ~ In "."%char (WaveformClass.chars (WaveformClass.before_dot f)).
Proof.
  induction f as [|c f IH]; simpl; [auto|].
  destruct (Ascii.eqb c "."%char) eqn:E; simpl; [auto|].
  intros [H|H]; [subst; discriminate|contradiction].
Qed.

Lemma replace_underscore_spec (s : string) (x : ascii) :
  In x (WaveformClass.chars (WaveformClass.replace_underscore s)) ->
  x <> "_"%char /\ (x = " "%char \/ In x (WaveformClass.chars s)).
Proof.
  induction s as [|c s IH]; simpl; [contradiction|].
  intros [H|H].
  - subst. destruct (Ascii.eqb c "_"%char) eqn:E.
    + split; [discriminate|auto].
    + split; [intro Hc; subst; discriminate|]. auto.
  - destruct (IH H) as [Hx [Hs|Hs]]; auto.
Qed.

Lemma get_names_fold (ws acc : list WaveformClass.waveform_obj) :
  fold_left (fun names w => names ++ [WaveformClass.obj_name w]) ws (map WaveformClass.obj_name acc) =
  map WaveformClass.obj_name (acc ++ ws).
Proof.
  revert acc. induction ws as [|w ws IH]; intro acc; simpl.
  - rewrite app_nil_r. reflexivity.
  - replace (map WaveformClass.obj_name acc ++ [WaveformClass.obj_name w]) with
      (map WaveformClass.obj_name (acc ++ [w])) by (rewrite map_app; reflexivity).
    rewrite IH, <- app_assoc. reflexivity.
Qed.

Lemma skipn_nth_error {A : Type} (l : list A) : forall (i : nat) (x : A),
  nth_error l i = Some x -> skipn i l = x :: skipn (S i) l.
Proof.
  induction l as [|y l IH]; intros [|i] x H; simpl in *; try discriminate.
  - injection H as ->. reflexivity.
  - apply IH. exact H.
Qed.

Lemma import_loop_spec genfromtxt savgol_filter (fs : list string) : forall i ps acc,
  (List.length ps = i + List.length fs)%nat ->
  WaveformClass.import_loop genfromtxt savgol_filter i fs ps acc =
  Ok (acc ++ map (fun fp => WaveformClass.Waveform_new genfromtxt savgol_filter
                              (snd fp) (fst fp) true) (combine fs (skipn i ps))).
Proof.
  induction fs as [|f fs IH]; intros i ps acc Hl; simpl in *.
  - rewrite app_nil_r. reflexivity.
  - destruct (nth_error ps i) as [p|] eqn:Ep;
      [|apply nth_error_None in Ep; lia].
    assert (Hg : Py.get ps (Z.of_nat i) = Ok p).
    { unfold Py.get.
      replace ((0 <=? Z.of_nat i) && (Z.of_nat i <? Z.of_nat (List.length ps)))%Z with true
        by (symmetry; apply andb_true_iff; split; [apply Z.leb_le | apply Z.ltb_lt]; lia).
      rewrite Nat2Z.id, Ep. reflexivity. }
    rewrite Hg. simpl. rewrite IH by lia. rewrite <- app_assoc.
    rewrite (skipn_nth_error ps i p Ep). reflexivity.
Qed.

Lemma listing_lengths (walk : list (string * list string * list string)) :
  List.length (flat_map (fun e => map WaveformClass.format_name
                                  (filter Listing.visible (snd e))) walk) =
  List.length (flat_map (fun e => map (Listing.join_path (fst (fst e)))
                                  (filter Listing.visible (snd e))) walk).
Proof.
  induction walk as [|e walk IH]; simpl; [reflexivity|].
  rewrite !length_app, !length_map, IH. reflexivity.
Qed.

Lemma find_name_spec (ws : list WaveformClass.waveform_obj) (n : string) :
  match find (fun w => String.eqb (WaveformClass.obj_name w) n) ws with
  | Some w => WaveformClass.obj_name w = n /\ In w ws
  | None => ~ In n (map WaveformClass.obj_name ws)
  end.
Proof.
  induction ws as [|w ws IH]; simpl; [auto|].
  destruct (String.eqb (WaveformClass.obj_name w) n) eqn:E.
  - apply String.eqb_eq in E. auto.
  - apply String.eqb_neq in E.
    destruct (find (fun w0 => String.eqb (WaveformClass.obj_name w0) n) ws) as [w'|].
    + destruct IH as [H1 H2]. auto.
    + intros [H|H]; [exact (E H)|exact (IH H)].
Qed.

Lemma map_fst_combine {A B : Type} (l : list A) : forall (l' : list B),
  (List.length l <= List.length l')%nat -> map fst (combine l l') = l.
Proof.
  induction l as [|x l IH]; intros [|y l'] H; simpl in *; try reflexivity; try lia.
  rewrite IH by lia. reflexivity.
Qed.

End ListingFacts.

(** [get_files_in_directory] either raises [IndexError] or returns the
    formatted names and the paths of the files not starting with ['.'], in
    the order of the walk; each path joins its directory and the file name
    with a ['/'] added only when the directory does not end in one. *)
Theorem get_files_in_directory_listing (walk : list (string * list string * list string)) :
  match WaveformClass.get_files_in_directory walk with
  | Ok (ns, ps) =>
      ns = flat_map (fun e => map WaveformClass.format_name
                                (filter Listing.visible (snd e))) walk /\
      ps = flat_map (fun e => map (Listing.join_path (fst (fst e)))
                                (filter Listing.visible (snd e))) walk
  | Raise e => e = IndexError
  end.
Proof.
  unfold WaveformClass.get_files_in_directory.
  exact (ListingFacts.walk_loop_spec walk [] []).
Qed.

(** [get_files_in_directory] raises exactly when some directory with at
    least one file has an empty path or an empty file name. *)
Theorem get_files_in_directory_raises_iff (walk : list (string * list string * list string)) :
  (exists r, WaveformClass.get_files_in_directory walk = Ok r) <->
  Forall (fun e => snd e <> [] ->
    fst (fst e) <> EmptyString /\ Forall (fun f => f <> EmptyString) (snd e)) walk.
Proof.
  unfold WaveformClass.get_files_in_directory.
  exact (ListingFacts.walk_loop_ok_iff walk [] []).
Qed.

(** A formatted waveform name contains no ['.'] and no ['_']. *)
Theorem format_name_clean (f : string) :
  ~ In "."%char (WaveformClass.chars (WaveformClass.format_name f)) /\
  ~ In "_"%char (WaveformClass.chars (WaveformClass.format_name f)).
Proof.
  unfold WaveformClass.format_name. split.
  - intro H. destruct (ListingFacts.replace_underscore_spec _ _ H) as [_ [Hs|Hs]];
      [discriminate|exact (ListingFacts.before_dot_clean f Hs)].
  - intro H. destruct (ListingFacts.replace_underscore_spec _ _ H) as [Hx _]. auto.
Qed.

(** [WaveformCollection(path)] raises what [get_files_in_directory] raises;
    otherwise it builds one [Waveform] per listed file, in order, keeping
    the objects whose construction failed, and its names are the listed
    names. *)
Theorem WaveformCollection_from_listing genfromtxt savgol_filter
  (walk : list (string * list string * list string)) :
  match WaveformClass.get_files_in_directory walk with
  | Ok (ns, ps) =>
      WaveformClass.WaveformCollection_new genfromtxt savgol_filter walk =
      Ok {| WaveformClass.waveforms :=
              map (fun fp => WaveformClass.Waveform_new genfromtxt savgol_filter
                               (snd fp) (fst fp) true) (combine ns ps);
            WaveformClass.names := ns |}
  | Raise e => WaveformClass.WaveformCollection_new genfromtxt savgol_filter walk = Raise e
  end.
Proof.
  pose proof (ListingFacts.walk_loop_spec walk [] []) as Hl.
  change (WaveformClass.walk_loop walk [] []) with (WaveformClass.get_files_in_directory walk) in Hl.
  unfold WaveformClass.WaveformCollection_new, WaveformClass.import_directory.
  destruct (WaveformClass.get_files_in_directory walk) as [[ns ps]|e]; simpl; [|reflexivity].
  destruct Hl as [Hn Hp]. rewrite app_nil_l in Hn, Hp.
  rewrite ListingFacts.import_loop_spec
    by (simpl; rewrite Hn, Hp; symmetry; apply ListingFacts.listing_lengths).
  simpl. unfold WaveformClass.get_names_in_waveform_list.
  rewrite (ListingFacts.get_names_fold _ []). simpl.
  rewrite map_map. simpl. rewrite ListingFacts.map_fst_combine; [reflexivity|].
  rewrite Hn, Hp, ListingFacts.listing_lengths. lia.
Qed.

(** On a collection built by [WaveformCollection(path)], [get(name)]
    returns a member of the collection carrying that name, and returns
    [None] only for a name not in [get_names()]. *)
Theorem WaveformCollection_get_by_name genfromtxt savgol_filter
  (walk : list (string * list string * list string)) (c : WaveformClass.collection) :
  WaveformClass.WaveformCollection_new genfromtxt savgol_filter walk = Ok c ->
  forall n,
  match WaveformClass.get c n with
  | Some w => WaveformClass.obj_name w = n /\ In w (WaveformClass.waveforms c)
  | None => ~ In n (WaveformClass.names c)
  end.
Proof.
  unfold WaveformClass.WaveformCollection_new.
  destruct (WaveformClass.import_directory genfromtxt savgol_filter walk) as [ws|e];
    simpl; [|discriminate].
  intros H n. injection H as <-. unfold WaveformClass.get. simpl.
  unfold WaveformClass.get_names_in_waveform_list.
  pose proof (ListingFacts.get_names_fold ws []) as Hg. simpl in Hg. rewrite Hg.
  apply ListingFacts.find_name_spec.
Qed.

Lemma WaveformCollection_get_by_name_witness :
  exists c, WaveformClass.WaveformCollection_new (fun _ => Raise ValueError) Inputs.savgol_raise
    [("data"%string, [], ["a_b.csv"%string; ".hidden"%string])] = Ok c /\
  forall n,
  match WaveformClass.get c n with
  | Some w => WaveformClass.obj_name w = n /\ In w (WaveformClass.waveforms c)
  | None => ~ In n (WaveformClass.names c)
  end.
Proof.
  destruct (WaveformClass.WaveformCollection_new (fun _ => Raise ValueError) Inputs.savgol_raise
    [("data"%string, [], ["a_b.csv"%string; ".hidden"%string])]) as [c|e] eqn:E;
    [|vm_compute in E; discriminate].
  exists c. split; [reflexivity|].
  exact (WaveformCollection_get_by_name _ _ _ c E).
Defined.

(** ** [flask_app/modules/flicker_analysis.py] *)

Module AnalyzerFacts.

Definition rising (values : list Q) (threshold : Q) (j : nat) : Prop :=
  nth (j - 1) values 0 <= threshold /\ threshold < nth j values 0.

Lemma rising_bool (values : list Q) (threshold : Q) (j : nat) :
  if Qle_bool (nth (j - 1) values 0) threshold && Qlt_bool threshold (nth j values 0)
  then rising values threshold j else ~ rising values threshold j.
Proof.
  unfold rising.
  destruct (Qle_bool (nth (j - 1) values 0) threshold) eqn:E1;
  destruct (Qlt_bool threshold (nth j values 0)) eqn:E2; simpl.
  - apply Qle_bool_iff in E1. apply ConsensusFacts.Qlt_bool_true in E2. auto.
  - apply ConsensusFacts.Qlt_bool_false in E2. intros [_ H]. lra.
  - apply CompareFacts.Qle_bool_false in E1. intros [H _]. lra.
  - apply CompareFacts.Qle_bool_false in E1. intros [H _]. lra.
Qed.

Lemma find_from_spec (values : list Q) (threshold : Q) (k : nat) : forall i,
  let r := Analyzer.find_rising_edge_from values threshold i k in
  (r = 0%nat /\ forall j, (i <= j < i + k)%nat -> ~ rising values threshold j) \/
  ((i <= r < i + k)%nat /\ rising values threshold r /\
   forall j, (i <= j < r)%nat -> ~ rising values threshold j).
Proof.
  induction k as [|k IH]; intro i; simpl.
  - left. split; [reflexivity|]. intros j Hj. lia.
  - pose proof (rising_bool values threshold i) as Hb.
    destruct (Qle_bool (nth (i - 1) values 0) threshold && Qlt_bool threshold (nth i values 0)).
    + right. split; [lia|]. split; [exact Hb|]. intros j Hj. lia.
    + destruct (IH (S i)) as [[H0 Hn] | [Hr [Hc Hm]]].
      * left. split; [exact H0|]. intros j Hj.
        destruct (Nat.eq_dec j i) as [->|Hne]; [exact Hb|]. apply Hn. lia.
      * right. split; [lia|]. split; [exact Hc|]. intros j Hj.
        destruct (Nat.eq_dec j i) as [->|Hne]; [exact Hb|]. apply Hm. lia.
Qed.

Lemma sum_above_nonneg (v_avg : Q) (values : list Q) :
  0 <= Estimator.sum (map (fun v => v - v_avg) (filter (fun v => Qlt_bool v_avg v) values)).
Proof.
  induction values as [|a values IH]; simpl; [lra|].
  destruct (Qlt_bool v_avg a) eqn:E; simpl; [|exact IH].
  apply ConsensusFacts.Qlt_bool_true in E. lra.
Qed.

Lemma sum_below_nonneg (v_avg : Q) (values : list Q) :
  0 <= Estimator.sum (map (fun v => v_avg - v) (filter (fun v => Qlt_bool v v_avg) values)).
Proof.
  induction values as [|a values IH]; simpl; [lra|].
  destruct (Qlt_bool a v_avg) eqn:E; simpl; [|exact IH].
  apply ConsensusFacts.Qlt_bool_true in E. lra.
Qed.

Lemma filters_flat (v_avg : Q) (values : list Q) :
  Forall (fun v => v == v_avg) values ->
  filter (fun v => Qlt_bool v_avg v) values = [] /\ filter (fun v => Qlt_bool v v_avg) values = [].
Proof.
  induction values as [|a values IH]; intro H; simpl; [auto|].
  inversion H as [|? ? Ha Hr]; subst.
  destruct (IH Hr) as [-> ->].
  destruct (Qlt_bool v_avg a) eqn:E1; [apply ConsensusFacts.Qlt_bool_true in E1; lra|].
  destruct (Qlt_bool a v_avg) eqn:E2; [apply ConsensusFacts.Qlt_bool_true in E2; lra|].
  auto.
Qed.

Lemma body_shape (data : list (Q * Q)) (v_avg freq r : Q) :
  Analyzer.calculate_flicker_index_body data v_avg freq = Ok r ->
  exists pre seg suf, data = pre ++ seg ++ suf /\
   (let values := map snd seg in
    let above_avg := map (fun v => v - v_avg) (filter (fun v => Qlt_bool v_avg v) values) in
    let below_avg := map (fun v => v_avg - v) (filter (fun v => Qlt_bool v v_avg) values) in
    let total_area := Estimator.sum above_avg + Estimator.sum below_avg in
    (if Qlt_bool 0 total_area
     then Ok ((Estimator.sum above_avg - Estimator.sum below_avg) / total_area)
     else Ok 0) = Ok r).
Proof.
  unfold Analyzer.calculate_flicker_index_body.
  destruct (Qeq_bool freq 0); simpl; [discriminate|].
  destruct (Py.get data 1) as [r1|e]; simpl; [|discriminate].
  destruct (Py.get data 0) as [r0|e]; simpl; [|discriminate].
  destruct (Waveform.int_of_div (1 / freq) (fst r1 - fst r0)) as [spp|e]; simpl; [|discriminate].
  intro H.
  match type of H with
  | context [Py.slice data ?a ?b] =>
      destruct (SearchFacts.slice_segment data a b) as (pre & suf & Hs);
      exists pre, (Py.slice data a b), suf; split; [exact Hs|exact H]
  end.
Qed.

Lemma ratio_range (v_avg r : Q) (values : list Q) :
  (let above_avg := map (fun v => v - v_avg) (filter (fun v => Qlt_bool v_avg v) values) in
   let below_avg := map (fun v => v_avg - v) (filter (fun v => Qlt_bool v v_avg) values) in
   let total_area := Estimator.sum above_avg + Estimator.sum below_avg in
   (if Qlt_bool 0 total_area
    then Ok ((Estimator.sum above_avg - Estimator.sum below_avg) / total_area)
    else Ok 0) = Ok r) ->
  -1 <= r <= 1.
Proof.
  cbv zeta. pose proof (sum_above_nonneg v_avg values) as Ha.
  pose proof (sum_below_nonneg v_avg values) as Hb.
  revert Ha Hb.
  generalize (Estimator.sum (map (fun v => v - v_avg) (filter (fun v => Qlt_bool v_avg v) values))) as a.
  generalize (Estimator.sum (map (fun v => v_avg - v) (filter (fun v => Qlt_bool v v_avg) values))) as b.
  intros b a Ha Hb.
  destruct (Qlt_bool 0 (a + b)) eqn:E; intro H; injection H as <-; [|lra].
  apply ConsensusFacts.Qlt_bool_true in E. split.
  - apply Qle_shift_div_l; [exact E|]. lra.
  - apply Qle_shift_div_r; [exact E|]. lra.
Qed.

Lemma Qlt_bool_iff (x y : Q) : Qlt_bool x y = true <-> x < y.
Proof.
  split; [apply ConsensusFacts.Qlt_bool_true|].
  intro H. destruct (Qlt_bool x y) eqn:E; [reflexivity|].
  apply ConsensusFacts.Qlt_bool_false in E. lra.
Qed.

Lemma harmonic_absent (e : Q) (peaks : list Q) :
  e <= 0 -> existsb (fun p => Qlt_bool (Qabs (p - e)) (e * (5#100))) peaks = false.
Proof.
  intro He. induction peaks as [|p peaks IH]; cbn [existsb]; [reflexivity|].
  rewrite IH, orb_false_r.
  destruct (Qlt_bool (Qabs (p - e)) (e * (5#100))) eqn:E; [|reflexivity].
  apply ConsensusFacts.Qlt_bool_true in E. pose proof (Qabs_nonneg (p - e)). lra.
Qed.

Lemma Qmult_assoc_eq (a b c : Q) : a * (b * c) = a * b * c.
Proof. unfold Qmult. simpl. rewrite Z.mul_assoc, Pos.mul_assoc. reflexivity. Qed.

Lemma harmonic_scale (k e : Q) (peaks : list Q) :
  0 < k ->
  existsb (fun p => Qlt_bool (Qabs (p - k * e)) (k * e * (5#100))) (map (Qmult k) peaks) =
  existsb (fun p => Qlt_bool (Qabs (p - e)) (e * (5#100))) peaks.
Proof.
  intro Hk. induction peaks as [|p peaks IH]; cbn [existsb map]; [reflexivity|].
  rewrite IH. f_equal.
  apply Bool.eq_iff_eq_true. rewrite !Qlt_bool_iff.
  assert (Habs : Qabs (k * p - k * e) == k * Qabs (p - e)).
  { setoid_replace (k * p - k * e) with (k * (p - e)) by ring.
    rewrite Qabs_Qmult, (Qabs_pos k) by lra. reflexivity. }
  rewrite Habs. setoid_replace (k * e * (5#100)) with (k * (e * (5#100))) by ring.
  split; intro H.
  - apply Qmult_lt_l in H; assumption.
  - apply Qmult_lt_l; assumption.
Qed.

End AnalyzerFacts.

(** [_find_rising_edge(values, threshold)] returns the first index [i >= 1]
    with [values[i-1] <= threshold < values[i]], and [0] exactly when there
    is no such index. *)
Theorem find_rising_edge_first (values : list Q) (threshold : Q) :
  let r := Analyzer.find_rising_edge values threshold in
  (r = 0%nat /\
   forall j, (1 <= j < List.length values)%nat ->
     ~ (nth (j - 1) values 0 <= threshold /\ threshold < nth j values 0)) \/
  ((1 <= r < List.length values)%nat /\
   nth (r - 1) values 0 <= threshold /\ threshold < nth r values 0 /\
   forall j, (1 <= j < r)%nat ->
     ~ (nth (j - 1) values 0 <= threshold /\ threshold < nth j values 0)).
Proof.
  unfold Analyzer.find_rising_edge. cbv zeta.
  destruct (AnalyzerFacts.find_from_spec values threshold (List.length values - 1) 1)
    as [[H0 Hn] | [Hr [Hc Hm]]].
  - left. split; [exact H0|]. intros j Hj. apply Hn. lia.
  - right. split; [lia|]. destruct Hc as [Hc1 Hc2]. split; [exact Hc1|].
    split; [exact Hc2|]. exact Hm.
Qed.

(** [_calculate_flicker_index] always returns a value in [[-1, 1]]: the
    areas above and below the average are non-negative, and every raised
    exception yields [0.0]. *)
Theorem calculate_flicker_index_in_range (data : list (Q * Q)) (v_avg freq : Q) :
  -1 <= Analyzer.calculate_flicker_index data v_avg freq <= 1.
Proof.
  unfold Analyzer.calculate_flicker_index.
  destruct (Analyzer.calculate_flicker_index_body data v_avg freq) as [r|e] eqn:E; [|lra].
  destruct (AnalyzerFacts.body_shape data v_avg freq r E) as (pre & seg & suf & _ & H).
  exact (AnalyzerFacts.ratio_range v_avg r (map snd seg) H).
Qed.

(** [_calculate_flicker_index] returns [0.0] on fewer than two rows, on a
    zero frequency, on equal first two sample times, and on a signal that
    equals [v_avg] everywhere. *)
Theorem calculate_flicker_index_degenerate (data : list (Q * Q)) (v_avg freq : Q) :
  ((List.length data < 2)%nat \/ freq == 0 \/
   fst (nth 1 data (0, 0)) == fst (nth 0 data (0, 0)) \/
   Forall (fun row => snd row == v_avg) data) ->
  Analyzer.calculate_flicker_index data v_avg freq = 0.
Proof.
  intros [Hl | [Hf | [Ht | Hv]]]; unfold Analyzer.calculate_flicker_index.
  - unfold Analyzer.calculate_flicker_index_body.
    destruct data as [|x [|y rest]]; simpl in Hl; [| |lia];
      destruct (Qeq_bool freq 0); reflexivity.
  - unfold Analyzer.calculate_flicker_index_body.
    replace (Qeq_bool freq 0) with true by (symmetry; apply Qeq_bool_iff; exact Hf).
    reflexivity.
  - unfold Analyzer.calculate_flicker_index_body.
    destruct (Qeq_bool freq 0); [reflexivity|].
    destruct data as [|x [|y rest]]; [reflexivity|reflexivity|]. simpl in Ht.
    rewrite (PeriodFacts.get_in_range (x :: y :: rest) 1 x) by (simpl; lia).
    rewrite (PeriodFacts.get_in_range (x :: y :: rest) 0 x) by (simpl; lia).
    change (nth (Z.to_nat 1) (x :: y :: rest) x) with y.
    change (nth (Z.to_nat 0) (x :: y :: rest) x) with x.
    cbn [bind]. unfold Waveform.int_of_div.
    replace (Qeq_bool (fst y - fst x) 0) with true
      by (symmetry; apply Qeq_bool_iff; lra).
    destruct (Qeq_bool (1 / freq) 0); reflexivity.
  - destruct (Analyzer.calculate_flicker_index_body data v_avg freq) as [r|e] eqn:E;
      [|reflexivity].
    destruct (AnalyzerFacts.body_shape data v_avg freq r E) as (pre & seg & suf & Hs & H).
    rewrite Hs in Hv. apply StatsFacts.Forall_segment in Hv.
    destruct (AnalyzerFacts.filters_flat v_avg (map snd seg)) as [H1 H2].
    { apply Forall_map. exact Hv. }
    cbv zeta in H. rewrite H1, H2 in H. simpl in H. injection H as <-. reflexivity.
Qed.

Lemma calculate_flicker_index_degenerate_witness :
  ((List.length ([(0, 2); (1, 2); (2, 2)] : list (Q * Q))%Q < 2)%nat \/ 1 == 0 \/
   fst (nth 1 [(0, 2); (1, 2); (2, 2)] (0, 0)) == fst (nth 0 [(0, 2); (1, 2); (2, 2)] (0, 0)) \/
   Forall (fun row => snd row == 2) [(0, 2); (1, 2); (2, 2)]) /\
  Analyzer.calculate_flicker_index [(0, 2); (1, 2); (2, 2)] 2 1 = 0.
Proof.
  assert (H : (List.length ([(0, 2); (1, 2); (2, 2)] : list (Q * Q))%Q < 2)%nat \/ 1 == 0 \/
   fst (nth 1 [(0, 2); (1, 2); (2, 2)] (0, 0)) == fst (nth 0 [(0, 2); (1, 2); (2, 2)] (0, 0)) \/
   Forall (fun row => snd row == 2) [(0, 2); (1, 2); (2, 2)]).
  { right. right. right. repeat constructor. }
  split; [exact H|]. exact (calculate_flicker_index_degenerate _ 2 1 H).
Defined.

(** A non-positive candidate is never a likely fundamental for
    [_is_likely_fundamental]: the 5 % tolerance around each harmonic is
    then empty. *)
Theorem is_likely_fundamental_nonpositive (candidate : Q) (all_peaks : list Q) :
  candidate <= 0 -> Analyzer.is_likely_fundamental candidate all_peaks = false.
Proof.
  intro Hc. unfold Analyzer.is_likely_fundamental. cbn [fold_left].
  rewrite !AnalyzerFacts.harmonic_absent by lra. reflexivity.
Qed.

Lemma is_likely_fundamental_nonpositive_witness :
  0 <= 0 /\ Analyzer.is_likely_fundamental 0 [0; 1; 2] = false.
Proof.
  split; [apply Qle_refl|]. apply (is_likely_fundamental_nonpositive 0 [0; 1; 2]).
  apply Qle_refl.
Defined.

(** [_is_likely_fundamental] does not depend on the unit of frequency:
    scaling the candidate and every peak by the same positive factor gives
    the same answer. *)
Theorem is_likely_fundamental_scale_invariant (k candidate : Q) (all_peaks : list Q) :
  0 < k ->
  Analyzer.is_likely_fundamental (k * candidate) (map (Qmult k) all_peaks) =
  Analyzer.is_likely_fundamental candidate all_peaks.
Proof.
  intro Hk. unfold Analyzer.is_likely_fundamental. cbn [fold_left].
  rewrite <- !(AnalyzerFacts.Qmult_assoc_eq k candidate).
  rewrite !(AnalyzerFacts.harmonic_scale k _ all_peaks Hk). reflexivity.
Qed.

Lemma is_likely_fundamental_scale_invariant_witness :
  0 < 1000 /\
  Analyzer.is_likely_fundamental (1000 * (1#10)) (map (Qmult 1000) [(2#10); (7#100)]) =
  Analyzer.is_likely_fundamental (1#10) [(2#10); (7#100)].
Proof.
  split; [reflexivity|].
  apply (is_likely_fundamental_scale_invariant 1000 (1#10) [(2#10); (7#100)]). reflexivity.
Defined.
